(** * IBEam API server (src/main.py): a shallow embedding and its properties

    The server is one Python module: a FastAPI application whose handlers
    read and write two module-level names, [connected] and [server_state],
    and answer with hard-coded demonstration data.  The embedding follows
    the module top to bottom.

    - Python values are the inductive [value]; a [dict] is a finite map from
      strings to values.
    - A function body is a computation in the monad [M]: it runs in a frame
      of local variables and in the module state, and either returns or
      raises.  Calling a function runs its body in a fresh frame ([call]).
    - Whether a name is local or global in a function is decided as the
      Python compiler decides it, from the names the body assigns and its
      [global] declarations ([is_local]).
    - [await f()] of a coroutine that never suspends is a plain call: no
      handler of this module yields to the event loop, so every handler runs
      to completion on the state it was started in. *)

From Stdlib Require Import QArith Sorted.
From stdpp Require Import gmap strings list fin_maps.

Set Warnings "-register-all".
#[local] Open Scope Z_scope.
#[local] Open Scope string_scope.

(** ** Values *)

(** JSON-shaped Python values.  A finite [float] is kept as the rational it
    denotes; the infinities and NaN, which [json.loads] accepts as
    [Infinity], [-Infinity] and [NaN], are values of their own. *)
Inductive value : Type :=
| VNone
| VBool (b : bool)
| VInt (z : Z)
| VFloat (q : Q)
| VFloatInf (negative : bool)
| VFloatNaN
| VStr (s : string)
| VList (l : list value)
| VDict (d : gmap string value).

Abbreviation dict := (gmap string value).

(** Truth value testing, as [if x] and [not x] do it. *)
Definition truthy (v : value) : bool :=
  match v with
  | VNone => false
  | VBool b => b
  | VInt z => negb (z =? 0)%Z
  | VFloat q => negb (Qeq_bool q 0)
  | VFloatInf _ => true
  | VFloatNaN => true
  | VStr s => negb (String.eqb s "")
  | VList l => negb (bool_decide (length l = 0%nat))
  | VDict d => negb (bool_decide (size d = 0%nat))
  end.

(** Numbers, and the two operators the quantity equation of an order uses.
    A bool is an int (False is 0, True is 1).  Arithmetic on finite floats is
    exact here: rounding and overflow of float sums are left out. *)
Inductive number : Type :=
| NumInt (z : Z)
| NumFloat (q : Q)
| NumInf (negative : bool)
| NumNaN.

Definition as_number (v : value) : option number :=
  match v with
  | VBool b => Some (NumInt (if b then 1 else 0))
  | VInt z => Some (NumInt z)
  | VFloat q => Some (NumFloat q)
  | VFloatInf negative => Some (NumInf negative)
  | VFloatNaN => Some NumNaN
  | _ => None
  end.

Definition of_number (x : number) : value :=
  match x with
  | NumInt z => VInt z
  | NumFloat q => VFloat q
  | NumInf negative => VFloatInf negative
  | NumNaN => VFloatNaN
  end.

(** [x + y]: int + int is an int, anything with a float is a float; NaN is
    contagious and inf + -inf is NaN. *)
Definition number_add (x y : number) : number :=
  match x, y with
  | NumNaN, _ => NumNaN
  | _, NumNaN => NumNaN
  | NumInf s, NumInf s' => if Bool.eqb s s' then NumInf s else NumNaN
  | NumInf s, _ => NumInf s
  | _, NumInf s => NumInf s
  | NumInt a, NumInt b => NumInt (a + b)
  | NumInt a, NumFloat q => NumFloat (inject_Z a + q)
  | NumFloat p, NumInt b => NumFloat (p + inject_Z b)
  | NumFloat p, NumFloat q => NumFloat (p + q)
  end.

(** [x == y]: NaN equals nothing, itself included. *)
Definition number_eq (x y : number) : bool :=
  match x, y with
  | NumNaN, _ => false
  | _, NumNaN => false
  | NumInf s, NumInf s' => Bool.eqb s s'
  | NumInf _, _ => false
  | _, NumInf _ => false
  | NumInt a, NumInt b => (a =? b)%Z
  | NumInt a, NumFloat q => Qeq_bool (inject_Z a) q
  | NumFloat p, NumInt b => Qeq_bool p (inject_Z b)
  | NumFloat p, NumFloat q => Qeq_bool p q
  end.

(** [a + b] and [a == b] for operands that are numbers; with an operand that
    is no number the result is [None] and [false]: the quantity equation is
    then not counted as holding. *)
Definition py_add (a b : value) : option value :=
  match as_number a, as_number b with
  | Some x, Some y => Some (of_number (number_add x y))
  | _, _ => None
  end.

Definition py_num_eq (a b : value) : bool :=
  match as_number a, as_number b with
  | Some x, Some y => number_eq x y
  | _, _ => false
  end.

(** ** Exceptions and outcomes *)

Inductive exn : Type :=
| UnboundLocalError (name : string)
| KeyError (key : string)
| HTTPException (status_code : Z) (detail : string).

Inductive outcome (A : Type) : Type :=
| Return (a : A)
| Raise (e : exn).
Arguments Return {A} a.
Arguments Raise {A} e.

(** ** Module state and frames *)

(** The module-level names that change after import, and the wall clock
    [datetime.utcnow().isoformat()] reads. *)
Record state : Type := State {
  connected : value;
  server_state : gmap string value;
  utcnow : string
}.

(** The local variables of one function activation. *)
Abbreviation frame := (gmap string value).

Definition M (A : Type) : Type := frame → state → outcome A * frame * state.

Definition ret {A} (a : A) : M A := λ fr g, (Return a, fr, g).

Definition bind {A B} (c : M A) (k : A → M B) : M B := λ fr g,
  match c fr g with
  | (Return a, fr', g') => k a fr' g'
  | (Raise e, fr', g') => (Raise e, fr', g')
  end.

Definition raise {A} (e : exn) : M A := λ fr g, (Raise e, fr, g).

Declare Scope M_scope.
Notation "x ← c ; k" := (bind c (λ x, k))
  (at level 20, c at level 100, k at level 200, only parsing, right associativity) : M_scope.
Notation "c ;; k" := (bind c (λ _, k))
  (at level 100, k at level 200, right associativity, only parsing) : M_scope.
Delimit Scope M_scope with M.
Bind Scope M_scope with M.
#[local] Open Scope M_scope.

(** [try: body except Exception as e: handler]; every exception of [exn] is
    an [Exception]. *)
Definition try_except {A} (body : M A) (handler : exn → M A) : M A := λ fr g,
  match body fr g with
  | (Return a, fr', g') => (Return a, fr', g')
  | (Raise e, fr', g') => handler e fr' g'
  end.

(** A call: the body runs in a fresh frame, the caller's frame is kept. *)
Definition call {A} (body : M A) : M A := λ fr g,
  let '(r, _, g') := body ∅ g in (r, fr, g').

(** ** Name resolution *)

(** What the compiler records of a function: the names its body binds
    (parameters, assignment targets, [for] targets, [as] names) and the names
    it declares [global]. *)
Record code : Type := Code {
  co_name : string;
  co_bound : list string;
  co_global : list string
}.

(** A name bound in the body and not declared [global] is local to it. *)
Definition is_local (c : code) (x : string) : bool :=
  bool_decide (x ∈ co_bound c) && negb (bool_decide (x ∈ co_global c)).

(** Reading a local that holds no value yet raises [UnboundLocalError]. *)
Definition load_fast (x : string) : M value := λ fr g,
  match fr !! x with
  | Some v => (Return v, fr, g)
  | None => (Raise (UnboundLocalError x), fr, g)
  end.

Definition store_fast (x : string) (v : value) : M unit := λ fr g,
  (Return (), <[x := v]> fr, g).

(** The name [connected], read and written from the function [c]. *)
Definition load_connected (c : code) : M value :=
  if is_local c "connected" then load_fast "connected"
  else λ fr g, (Return (connected g), fr, g).

Definition store_connected (c : code) (v : value) : M unit :=
  if is_local c "connected" then store_fast "connected" v
  else λ fr g, (Return (), fr, State v (server_state g) (utcnow g)).

(** [server_state] is never rebound, only its items are: every function sees
    the module-level dictionary. *)
Definition server_state_setitem (k : string) (v : value) : M unit := λ fr g,
  (Return (), fr, State (connected g) (<[k := v]> (server_state g)) (utcnow g)).

Definition server_state_getitem (k : string) : M value := λ fr g,
  match server_state g !! k with
  | Some v => (Return v, fr, g)
  | None => (Raise (KeyError k), fr, g)
  end.

Definition load_server_state : M value := λ fr g,
  (Return (VDict (server_state g)), fr, g).

Definition utcnow_isoformat : M value := λ fr g,
  (Return (VStr (utcnow g)), fr, g).

(** [d[k]] and [d.get(k, default)] on a dictionary held in a local. *)
Definition getitem (d : dict) (k : string) : M value :=
  match d !! k with
  | Some v => ret v
  | None => raise (KeyError k)
  end.

Definition get (d : dict) (k : string) (dflt : value) : value :=
  default dflt (d !! k).

(** A dictionary display [{k1: v1, ..., kn: vn}]. *)
Definition mkdict (items : list (string * value)) : dict := list_to_map items.

(** ** Objects of the broker library and the conversion helpers *)

(** What [contract_to_dict], [position_to_dict] and [order_to_dict] are given:
    a plain value ([None] among them), or an instance with its truth value
    and its attributes. *)
Inductive object : Type :=
| OValue (v : value)
| OInstance (truth : bool) (attrs : gmap string object).

Definition object_truthy (o : object) : bool :=
  match o with
  | OValue v => truthy v
  | OInstance truth _ => truth
  end.

Inductive attr_outcome (A : Type) : Type :=
| Got (a : A)
| AttributeError (name : string).
Arguments Got {A} a.
Arguments AttributeError {A} name.

(** [o.name]; plain values have none of the attributes the helpers read. *)
Definition getattr (o : object) (name : string) : attr_outcome object :=
  match o with
  | OInstance _ attrs =>
      match attrs !! name with
      | Some x => Got x
      | None => AttributeError name
      end
  | OValue _ => AttributeError name
  end.

(** [o.a1.a2...]. *)
Fixpoint getattr_path (o : object) (path : list string) : attr_outcome object :=
  match path with
  | [] => Got o
  | name :: rest =>
      match getattr o name with
      | Got x => getattr_path x rest
      | AttributeError n => AttributeError n
      end
  end.

(** A dictionary display whose item expressions are attribute paths of [o],
    evaluated in the order they are written; the keys of the displays below
    are pairwise distinct. *)
Fixpoint display (o : object) (items : list (string * list string))
  : attr_outcome (gmap string object) :=
  match items with
  | [] => Got ∅
  | (k, path) :: rest =>
      match getattr_path o path with
      | AttributeError n => AttributeError n
      | Got x =>
          match display o rest with
          | AttributeError n => AttributeError n
          | Got d => Got (<[k := x]> d)
          end
      end
  end.

(** [if not o: return None], then the display. *)
Definition to_dict (items : list (string * list string)) (o : object)
  : attr_outcome (option (gmap string object)) :=
  if negb (object_truthy o) then Got None
  else
    match display o items with
    | Got d => Got (Some d)
    | AttributeError n => AttributeError n
    end.

Definition contract_items : list (string * list string) := [
  ("symbol", ["symbol"]);
  ("secType", ["secType"]);
  ("exchange", ["exchange"]);
  ("currency", ["currency"]);
  ("localSymbol", ["localSymbol"]);
  ("conId", ["conId"])
].

Definition contract_to_dict (contract : object) := to_dict contract_items contract.

Definition position_items : list (string * list string) := [
  ("symbol", ["contract"; "symbol"]);
  ("secType", ["contract"; "secType"]);
  ("exchange", ["contract"; "exchange"]);
  ("currency", ["contract"; "currency"]);
  ("position", ["position"]);
  ("avgCost", ["avgCost"]);
  ("marketPrice", ["marketPrice"]);
  ("marketValue", ["marketValue"]);
  ("unrealizedPNL", ["unrealizedPNL"]);
  ("realizedPNL", ["realizedPNL"])
].

Definition position_to_dict (position : object) := to_dict position_items position.

Definition order_items : list (string * list string) := [
  ("orderId", ["order"; "orderId"]);
  ("clientId", ["order"; "clientId"]);
  ("action", ["order"; "action"]);
  ("totalQuantity", ["order"; "totalQuantity"]);
  ("orderType", ["order"; "orderType"]);
  ("lmtPrice", ["order"; "lmtPrice"]);
  ("auxPrice", ["order"; "auxPrice"]);
  ("status", ["orderStatus"; "status"]);
  ("filled", ["orderStatus"; "filled"]);
  ("remaining", ["orderStatus"; "remaining"]);
  ("avgFillPrice", ["orderStatus"; "avgFillPrice"]);
  ("lastFillPrice", ["orderStatus"; "lastFillPrice"]);
  ("symbol", ["contract"; "symbol"]);
  ("secType", ["contract"; "secType"]);
  ("exchange", ["contract"; "exchange"])
].

Definition order_to_dict (trade : object) := to_dict order_items trade.

(** ** Sample data *)

(** A contract, a position on it, and a position whose contract is None. *)
Definition aapl_contract : object :=
  OInstance true (list_to_map [
    ("symbol", OValue (VStr "AAPL"));
    ("secType", OValue (VStr "STK"));
    ("exchange", OValue (VStr "SMART"));
    ("currency", OValue (VStr "USD"));
    ("localSymbol", OValue (VStr "AAPL"));
    ("conId", OValue (VInt 265598))
  ]).

Definition aapl_position : object :=
  OInstance true (list_to_map [
    ("contract", aapl_contract);
    ("position", OValue (VInt 100));
    ("avgCost", OValue (VFloat 150));
    ("marketPrice", OValue (VFloat 155));
    ("marketValue", OValue (VFloat 15500));
    ("unrealizedPNL", OValue (VFloat 500));
    ("realizedPNL", OValue (VFloat 0))
  ]).

(** A filled trade on the contract. *)
Definition aapl_trade : object :=
  OInstance true (list_to_map [
    ("order", OInstance true (list_to_map [
       ("orderId", OValue (VInt 1));
       ("clientId", OValue (VInt 1));
       ("action", OValue (VStr "BUY"));
       ("totalQuantity", OValue (VInt 100));
       ("orderType", OValue (VStr "LMT"));
       ("lmtPrice", OValue (VFloat 150));
       ("auxPrice", OValue (VFloat 0))
     ]));
    ("orderStatus", OInstance true (list_to_map [
       ("status", OValue (VStr "Filled"));
       ("filled", OValue (VInt 100));
       ("remaining", OValue (VInt 0));
       ("avgFillPrice", OValue (VFloat 149.5));
       ("lastFillPrice", OValue (VFloat 149.5))
     ]));
    ("contract", aapl_contract)
  ]).

Definition orphan_position : object :=
  OInstance true (list_to_map [
    ("contract", OValue VNone);
    ("position", OValue (VInt 100));
    ("avgCost", OValue (VFloat 150))
  ]).


Definition demo_environ : gmap string string :=
  list_to_map [("API_KEY", "s3cret"); ("IB_USERNAME", "trader"); ("USER_ID", "u1")].

(** The status of "Not authenticated" in fastapi 0.115. *)
Definition demo_status : Z := 403.

Definition demo_exn_str (e : exn) : string :=
  match e with
  | UnboundLocalError name => "local variable " ++ name
  | KeyError key => key
  | HTTPException _ detail => detail
  end.

(** A limit order, a market order for a negative quantity, and a limit order
    that carries no limit price. *)
Definition limit_order : dict :=
  mkdict [
    ("symbol", VStr "AAPL");
    ("action", VStr "BUY");
    ("quantity", VInt 100);
    ("orderType", VStr "LMT");
    ("limitPrice", VFloat 150)
  ].

Definition negative_order : dict :=
  mkdict [
    ("symbol", VStr "MSFT");
    ("action", VStr "SELL");
    ("quantity", VInt (-5));
    ("orderType", VStr "MKT")
  ].

Definition unpriced_limit_order : dict :=
  mkdict [
    ("symbol", VStr "AAPL");
    ("action", VStr "BUY");
    ("quantity", VInt 10);
    ("orderType", VStr "LMT")
  ].

(** A frame in which the local [connected] holds [v]. *)
Definition frame_with_connected (v : value) : frame := {["connected" := v]}.

(** ** The module *)

Section Server.

(** The process environment, read once when the module is imported. *)
Variable environ : gmap string string.

(** [str(e)] of an exception; the text depends on the interpreter and on the
    library that defines the exception. *)
Variable exn_str : exn → string.

(** The status code of FastAPI's answer "Not authenticated" to a request
    without credentials: 403 up to fastapi 0.115, 401 in later releases. *)
Variable not_authenticated_status : Z.

(** [os.environ.get(k, default)]. *)
Definition environ_get (k dflt : string) : string :=
  default dflt (environ !! k).

Definition API_KEY : string := environ_get "API_KEY" "".
Definition IB_USERNAME : string := environ_get "IB_USERNAME" "".
Definition IB_PASSWORD : string := environ_get "IB_PASSWORD" "".
Definition USER_ID : string := environ_get "USER_ID" "".
Definition ENVIRONMENT : string := environ_get "ENVIRONMENT" "development".

(** The module state right after import, at wall-clock reading [now]. *)
Definition initial_server_state (now : string) : dict :=
  mkdict [
    ("status", VStr "initializing");
    ("user_id", VStr USER_ID);
    ("account_id", VStr ("ib_" ++ IB_USERNAME));
    ("connected", VBool false);
    ("last_connected", VNone);
    ("startup_time", VStr now);
    ("ib_gateway_version", VNone);
    ("error_message", VNone)
  ].

Definition initial_state (now : string) : state :=
  State (VBool false) (initial_server_state now) now.

(** *** Security dependency *)

(** [api_key_header = APIKeyHeader(name="X-API-Key")], a class of FastAPI
    used with its default [auto_error=True]: it reads the header of the
    request, and when the header is absent or empty it answers the request
    itself with "Not authenticated", so that nothing that depends on it
    runs.  [None] is a request without the header. *)
Definition api_key_header (header : option string) : M string :=
  match header with
  | Some s =>
      if String.eqb s ""
      then raise (HTTPException not_authenticated_status "Not authenticated")
      else ret s
  | None => raise (HTTPException not_authenticated_status "Not authenticated")
  end.

Definition verify_api_key (api_key : string) : M string :=
  if negb (String.eqb api_key API_KEY)
  then raise (HTTPException 401 "Invalid API Key")
  else ret api_key.

(** [Depends(verify_api_key)], whose parameter is [Depends(api_key_header)]. *)
Definition authenticate (header : option string) : M string :=
  api_key ← api_key_header header;
  verify_api_key api_key.

(** *** Connection management *)

Definition connect_to_ib_code : code :=
  Code "connect_to_ib" ["connected"; "e"] ["connected"; "server_state"].

(** The body of the [try] block and the [except Exception as e] block. *)
Definition connect_to_ib_try : M value :=
  let c := connect_to_ib_code in
  server_state_setitem "status" (VStr "connecting");;
  store_connected c (VBool true);;
  v ← load_connected c;
  server_state_setitem "connected" v;;
  t ← utcnow_isoformat;
  server_state_setitem "last_connected" t;;
  server_state_setitem "status" (VStr "connected");;
  server_state_setitem "ib_gateway_version" (VStr "Demo Version");;
  v ← load_connected c;
  ret v.

Definition connect_to_ib_except (e : exn) : M value :=
  let c := connect_to_ib_code in
  server_state_setitem "status" (VStr "error");;
  server_state_setitem "error_message" (VStr (exn_str e));;
  store_connected c (VBool false);;
  v ← load_connected c;
  server_state_setitem "connected" v;;
  ret (VBool false).

Definition connect_to_ib : M value :=
  v ← load_connected connect_to_ib_code;
  if truthy v then ret (VBool true)
  else try_except connect_to_ib_try connect_to_ib_except.

Definition disconnect_from_ib_code : code :=
  Code "disconnect_from_ib" ["connected"; "e"] ["connected"; "server_state"].

Definition disconnect_from_ib_try : M value :=
  let c := disconnect_from_ib_code in
  store_connected c (VBool false);;
  v ← load_connected c;
  server_state_setitem "connected" v;;
  server_state_setitem "status" (VStr "disconnected");;
  ret (VBool true).

Definition disconnect_from_ib_except (e : exn) : M value :=
  server_state_setitem "error_message" (VStr (exn_str e));;
  ret (VBool false).

Definition disconnect_from_ib : M value :=
  v ← load_connected disconnect_from_ib_code;
  if negb (truthy v) then ret (VBool true)
  else try_except disconnect_from_ib_try disconnect_from_ib_except.

(** *** Lifecycle events *)

(** [startup_event] logs, builds a [BackgroundTasks] object, adds
    [connect_to_ib] to it and drops the object: the task is never run. *)
Definition startup_event : M unit := ret ().

Definition shutdown_event : M unit := call disconnect_from_ib;; ret ().

(** *** Endpoints *)

Definition health_check_code : code := Code "health_check" [] [].

Definition health_check : M value :=
  t ← utcnow_isoformat;
  v ← load_connected health_check_code;
  ret (VDict (mkdict [
    ("status", VStr "healthy");
    ("timestamp", t);
    ("service", VStr "ibearmy");
    ("user_id", VStr USER_ID);
    ("ib_connection", v)
  ])).

Definition get_status : M value := load_server_state.

Definition connect : M value :=
  success ← call connect_to_ib;
  status ← server_state_getitem "status";
  t ← utcnow_isoformat;
  ret (VDict (mkdict [
    ("success", success);
    ("status", status);
    ("timestamp", t)
  ])).

Definition disconnect : M value :=
  success ← call disconnect_from_ib;
  status ← server_state_getitem "status";
  t ← utcnow_isoformat;
  ret (VDict (mkdict [
    ("success", success);
    ("status", status);
    ("timestamp", t)
  ])).

(** The four lines every data handler starts with, for the handler [c]:
<<
    if not connected:
        connected = await connect_to_ib()
    if not connected:
        raise HTTPException(status_code=503, detail="Not connected to IB")
>> *)
Definition require_connection (c : code) : M unit :=
  v ← load_connected c;
  (if negb (truthy v)
   then (r ← call connect_to_ib; store_connected c r)
   else ret ());;
  v ← load_connected c;
  if negb (truthy v)
  then raise (HTTPException 503 "Not connected to IB")
  else ret ().

Definition get_accounts_code : code :=
  Code "get_accounts" ["connected"; "account"] [].

Definition get_accounts : M value :=
  require_connection get_accounts_code;;
  let account := VDict (mkdict [
    ("account_id", VStr ("ib_" ++ IB_USERNAME));
    ("type", VStr "securities");
    ("name", VStr "Securities Account");
    ("currency", VStr "USD");
    ("balance", VFloat 10000);
    ("equity", VFloat 10500);
    ("margin", VFloat 2000);
    ("available_funds", VFloat 8000)
  ]) in
  ret (VList [account]).

Definition get_positions_code : code :=
  Code "get_positions" ["connected"; "positions"] [].

Definition get_positions : M value :=
  require_connection get_positions_code;;
  let positions := VList [
    VDict (mkdict [
      ("symbol", VStr "AAPL");
      ("secType", VStr "STK");
      ("exchange", VStr "SMART");
      ("currency", VStr "USD");
      ("position", VInt 100);
      ("avgCost", VFloat 150);
      ("marketPrice", VFloat 155);
      ("marketValue", VFloat 15500);
      ("unrealizedPNL", VFloat 500);
      ("realizedPNL", VFloat 0)
    ]);
    VDict (mkdict [
      ("symbol", VStr "MSFT");
      ("secType", VStr "STK");
      ("exchange", VStr "SMART");
      ("currency", VStr "USD");
      ("position", VInt 50);
      ("avgCost", VFloat 250);
      ("marketPrice", VFloat 260);
      ("marketValue", VFloat 13000);
      ("unrealizedPNL", VFloat 500);
      ("realizedPNL", VFloat 200)
    ])
  ] in
  ret positions.

Definition get_orders_code : code :=
  Code "get_orders" ["connected"; "orders"] [].

(** The list [orders] that [get_orders] builds. *)
Definition mock_orders : list dict := [
  mkdict [
    ("orderId", VInt 1);
    ("clientId", VInt 1);
    ("action", VStr "BUY");
    ("totalQuantity", VInt 100);
    ("orderType", VStr "LMT");
    ("lmtPrice", VFloat 150);
    ("auxPrice", VFloat 0);
    ("status", VStr "Filled");
    ("filled", VInt 100);
    ("remaining", VInt 0);
    ("avgFillPrice", VFloat 149.5);
    ("lastFillPrice", VFloat 149.5);
    ("symbol", VStr "AAPL");
    ("secType", VStr "STK");
    ("exchange", VStr "SMART")
  ]
].

Definition get_orders : M value :=
  require_connection get_orders_code;;
  let orders := VList (VDict <$> mock_orders) in
  ret orders.

Definition place_order_code : code :=
  Code "place_order"
    ["order_data"; "connected"; "required_fields"; "field"; "new_order"] [].

Definition required_fields : list string :=
  ["symbol"; "action"; "quantity"; "orderType"].

(** The loop over [required_fields]: the first field that is not a key of
    [order_data] ends the request with 400. *)
Fixpoint check_required (fields : list string) (order_data : dict) : M unit :=
  match fields with
  | [] => ret ()
  | field :: rest =>
      match order_data !! field with
      | None => raise (HTTPException 400 ("Missing required field: " ++ field))
      | Some _ => check_required rest order_data
      end
  end.

(** The dictionary display bound to [new_order]; its item expressions are
    evaluated in the order they are written. *)
Definition new_order (order_data : dict) : M dict :=
  action ← getitem order_data "action";
  totalQuantity ← getitem order_data "quantity";
  orderType ← getitem order_data "orderType";
  let lmtPrice := get order_data "limitPrice" (VFloat 0) in
  let auxPrice := get order_data "stopPrice" (VFloat 0) in
  remaining ← getitem order_data "quantity";
  symbol ← getitem order_data "symbol";
  let secType := get order_data "secType" (VStr "STK") in
  let exchange := get order_data "exchange" (VStr "SMART") in
  ret (mkdict [
    ("orderId", VInt 2);
    ("clientId", VInt 1);
    ("action", action);
    ("totalQuantity", totalQuantity);
    ("orderType", orderType);
    ("lmtPrice", lmtPrice);
    ("auxPrice", auxPrice);
    ("status", VStr "PreSubmitted");
    ("filled", VInt 0);
    ("remaining", remaining);
    ("avgFillPrice", VFloat 0);
    ("lastFillPrice", VFloat 0);
    ("symbol", symbol);
    ("secType", secType);
    ("exchange", exchange)
  ]).

Definition place_order (order_data : dict) : M value :=
  require_connection place_order_code;;
  check_required required_fields order_data;;
  o ← new_order order_data;
  ret (VDict o).

Definition cancel_order_code : code :=
  Code "cancel_order" ["order_id"; "connected"] [].

Definition cancel_order (order_id : Z) : M value :=
  require_connection cancel_order_code;;
  t ← utcnow_isoformat;
  ret (VDict (mkdict [
    ("orderId", VInt order_id);
    ("status", VStr "Cancelled");
    ("message", VStr "Order cancelled successfully");
    ("timestamp", t)
  ])).

Definition get_market_data_code : code :=
  Code "get_market_data"
    ["symbol"; "sec_type"; "exchange"; "currency"; "connected"] [].

Definition get_market_data (symbol sec_type exchange currency : string) : M value :=
  require_connection get_market_data_code;;
  t ← utcnow_isoformat;
  ret (VDict (mkdict [
    ("symbol", VStr symbol);
    ("secType", VStr sec_type);
    ("exchange", VStr exchange);
    ("currency", VStr currency);
    ("last", VFloat 155);
    ("bid", VFloat 154.9);
    ("ask", VFloat 155.1);
    ("high", VFloat 156);
    ("low", VFloat 154);
    ("volume", VInt 5000000);
    ("timestamp", t)
  ])).

(** *** Routing *)

(** The routes of the application with the arguments FastAPI extracts for
    them; an omitted query parameter of [/marketdata/{symbol}] is [None] and
    takes the default of the signature. *)
Inductive request : Type :=
| GET_health
| GET_status
| POST_connect
| POST_disconnect
| GET_accounts
| GET_positions
| GET_orders
| POST_orders (order_data : dict)
| DELETE_orders (order_id : Z)
| GET_marketdata (symbol : string) (sec_type exchange currency : option string).

(** Every route but [/health] is declared with
    [dependencies=[Depends(verify_api_key)]]. *)
Definition requires_api_key (r : request) : bool :=
  match r with
  | GET_health => false
  | _ => true
  end.

Definition endpoint (r : request) : M value :=
  match r with
  | GET_health => health_check
  | GET_status => get_status
  | POST_connect => connect
  | POST_disconnect => disconnect
  | GET_accounts => get_accounts
  | GET_positions => get_positions
  | GET_orders => get_orders
  | POST_orders order_data => place_order order_data
  | DELETE_orders order_id => cancel_order order_id
  | GET_marketdata symbol sec_type exchange currency =>
      get_market_data symbol (default "STK" sec_type)
        (default "SMART" exchange) (default "USD" currency)
  end.

(** One request, with the X-API-Key header it carries: the dependency first,
    then the endpoint function is called. *)
Definition serve (api_key : option string) (r : request) : M value :=
  (if requires_api_key r then (authenticate api_key;; ret ()) else ret ());;
  call (endpoint r).

(** The data handlers, the ones that start with [require_connection]. *)
Definition data_handler (r : request) : bool :=
  match r with
  | GET_accounts | GET_positions | GET_orders
  | POST_orders _ | DELETE_orders _ | GET_marketdata _ _ _ _ => true
  | _ => false
  end.

(** *** The running process *)

Definition run {A} (c : M A) (g : state) : outcome A * state :=
  let '(r, _, g') := c ∅ g in (r, g').

Inductive event : Type :=
| Request (api_key : option string) (r : request)
| ClockTick (now : string)
| Shutdown.

Definition step (ev : event) (g : state) : state :=
  match ev with
  | Request api_key r => (run (serve api_key r) g).2
  | ClockTick now => State (connected g) (server_state g) now
  | Shutdown => (run shutdown_event g).2
  end.

Inductive reachable : state → Prop :=
| reachable_init now : reachable (initial_state now)
| reachable_step ev g : reachable g → reachable (step ev g).


(** ** Derived notions used in the statements *)

(** The module state [connect_to_ib] leaves when it runs its [try] block. *)
Definition after_connect (g : state) : state :=
  State (VBool true)
    (<["ib_gateway_version" := VStr "Demo Version"]>
      (<["status" := VStr "connected"]>
        (<["last_connected" := VStr (utcnow g)]>
          (<["connected" := VBool true]>
            (<["status" := VStr "connecting"]> (server_state g))))))
    (utcnow g).

(** The state after a call of [connect_to_ib], which does nothing when the
    module-level [connected] is already true. *)
Definition connect_effect (g : state) : state :=
  if truthy (connected g) then g else after_connect g.

Definition after_disconnect (g : state) : state :=
  State (VBool false)
    (<["status" := VStr "disconnected"]>
      (<["connected" := VBool false]> (server_state g)))
    (utcnow g).

Definition disconnect_effect (g : state) : state :=
  if truthy (connected g) then after_disconnect g else g.

(** The frame and the state in which a data handler continues after its
    guard, when its local [connected] held [v] on entry. *)
Definition passed_frame (v : value) (fr : frame) : frame :=
  if truthy v then fr else <["connected" := VBool true]> fr.

Definition passed_state (v : value) (g : state) : state :=
  if truthy v then g else connect_effect g.

(** The flag and the dictionary agree on a live session. *)
Definition session_consistent (g : state) : Prop :=
  ∃ b : bool,
    connected g = VBool b ∧
    is_Some (server_state g !! "status") ∧
    (b = true →
     server_state g !! "status" = Some (VStr "connected") ∧
     server_state g !! "connected" = Some (VBool true)).

(** [filled + remaining == totalQuantity] on an order dictionary. *)
Definition quantity_equation (o : dict) : Prop :=
  ∃ filled remaining total sum : value,
    o !! "filled" = Some filled ∧
    o !! "remaining" = Some remaining ∧
    o !! "totalQuantity" = Some total ∧
    py_add filled remaining = Some sum ∧
    py_num_eq sum total = true.

(** The [orderId] of an order dictionary. *)
Definition order_id (o : dict) : option Z :=
  match o !! "orderId" with
  | Some (VInt z) => Some z
  | _ => None
  end.






(** The order ids [GET /orders] lists. *)
Definition listed_order_ids : list Z := omap order_id mock_orders.

(** The field at which the loop of [check_required] stops, if any. *)
Fixpoint first_missing (fields : list string) (order_data : dict) : option string :=
  match fields with
  | [] => None
  | field :: rest =>
      match order_data !! field with
      | None => Some field
      | Some _ => first_missing rest order_data
      end
  end.

(** All four required fields are keys of [order_data]. *)
Definition has_required_fields (order_data : dict) : Prop :=
  ∀ field, field ∈ required_fields → is_Some (order_data !! field).

(** The header passes [api_key_header] and [verify_api_key]. *)
Definition key_accepted (header : option string) : bool :=
  match header with
  | Some s => negb (String.eqb s "") && String.eqb s API_KEY
  | None => false
  end.

(** The exception that answers a header that does not pass. *)
Definition key_rejection (header : option string) : exn :=
  match header with
  | Some s =>
      if String.eqb s ""
      then HTTPException not_authenticated_status "Not authenticated"
      else HTTPException 401 "Invalid API Key"
  | None => HTTPException not_authenticated_status "Not authenticated"
  end.

(** The three values [server_state["status"]] holds between requests. *)
Definition settled_status (s : string) : Prop :=
  s = "initializing" ∨ s = "connected" ∨ s = "disconnected".

(** The flag, [server_state["connected"]] and [server_state["status"]] tell
    the same story. *)
Definition session_in_sync (g : state) : Prop :=
  ∃ (b : bool) (s : string),
    connected g = VBool b ∧
    server_state g !! "connected" = Some (VBool b) ∧
    server_state g !! "status" = Some (VStr s) ∧
    settled_status s ∧
    (s = "connected" ↔ b = true).

(** The keys of [server_state]. *)
Definition server_state_keys : gset string :=
  list_to_set ["status"; "user_id"; "account_id"; "connected"; "last_connected";
               "startup_time"; "ib_gateway_version"; "error_message"].

(** The entries of [server_state] no function of the module writes after
    import, and the error message, which only [except] blocks write. *)
Definition identity_kept (g : state) : Prop :=
  dom (server_state g) = server_state_keys ∧
  server_state g !! "user_id" = Some (VStr USER_ID) ∧
  server_state g !! "account_id" = Some (VStr ("ib_" ++ IB_USERNAME)) ∧
  (∃ t, server_state g !! "startup_time" = Some (VStr t)) ∧
  server_state g !! "error_message" = Some VNone.

(** The keys of the dictionary [place_order] answers with. *)
Definition order_keys : gset string :=
  list_to_set ["orderId"; "clientId"; "action"; "totalQuantity"; "orderType";
               "lmtPrice"; "auxPrice"; "status"; "filled"; "remaining";
               "avgFillPrice"; "lastFillPrice"; "symbol"; "secType"; "exchange"].

(** The wall clock moves to [now]. *)
Definition at_time (now : string) (g : state) : state :=
  State (connected g) (server_state g) now.

(** ** Basic equations *)

Lemma connect_to_ib_code_global :
  is_local connect_to_ib_code "connected" = false.
Proof. reflexivity. Qed.

Lemma disconnect_from_ib_code_global :
  is_local disconnect_from_ib_code "connected" = false.
Proof. reflexivity. Qed.

Lemma health_check_code_global :
  is_local health_check_code "connected" = false.
Proof. reflexivity. Qed.

Lemma connect_to_ib_try_eq fr g :
  connect_to_ib_try fr g = (Return (VBool true), fr, after_connect g).
Proof.
  unfold connect_to_ib_try, load_connected, store_connected.
  rewrite connect_to_ib_code_global. reflexivity.
Qed.

Lemma connect_to_ib_eq fr g :
  connect_to_ib fr g = (Return (VBool true), fr, connect_effect g).
Proof.
  unfold connect_to_ib, load_connected, connect_effect.
  rewrite connect_to_ib_code_global. unfold bind at 1, try_except.
  destruct (truthy (connected g)); [reflexivity|].
  by rewrite connect_to_ib_try_eq.
Qed.

Lemma disconnect_from_ib_try_eq fr g :
  disconnect_from_ib_try fr g = (Return (VBool true), fr, after_disconnect g).
Proof.
  unfold disconnect_from_ib_try, load_connected, store_connected.
  rewrite disconnect_from_ib_code_global. reflexivity.
Qed.

Lemma disconnect_from_ib_eq fr g :
  disconnect_from_ib fr g = (Return (VBool true), fr, disconnect_effect g).
Proof.
  unfold disconnect_from_ib, load_connected, disconnect_effect.
  rewrite disconnect_from_ib_code_global. unfold bind at 1, try_except.
  destruct (truthy (connected g)); cbn [negb]; [|reflexivity].
  by rewrite disconnect_from_ib_try_eq.
Qed.

Lemma call_eq {A} (body : M A) fr g :
  call body fr g = ((body ∅ g).1.1, fr, (body ∅ g).2).
Proof. unfold call. by destruct (body ∅ g) as [[??]?]. Qed.

(** The guard, in a handler where [connected] is a local name. *)
Lemma require_connection_local c fr g :
  is_local c "connected" = true →
  require_connection c fr g =
    match fr !! "connected" with
    | None => (Raise (UnboundLocalError "connected"), fr, g)
    | Some v =>
        if truthy v then (Return (), fr, g)
        else (Return (), <["connected" := VBool true]> fr, connect_effect g)
    end.
Proof.
  intros Hloc. unfold require_connection, load_connected, store_connected.
  rewrite Hloc. unfold bind at 1. unfold load_fast at 1.
  destruct (fr !! "connected") as [v|] eqn:Hfr; [|reflexivity].
  destruct (truthy v) eqn:Hv; simpl.
  - unfold bind, ret, load_fast. rewrite Hfr, Hv. reflexivity.
  - unfold bind. rewrite call_eq, connect_to_ib_eq. simpl.
    unfold store_fast, load_fast. rewrite lookup_insert_eq. reflexivity.
Qed.

Lemma data_handler_codes_local :
  Forall (λ c, is_local c "connected" = true)
    [get_accounts_code; get_positions_code; get_orders_code;
     place_order_code; cancel_order_code; get_market_data_code].
Proof. repeat constructor. Qed.

Lemma guarded_local {A} c (k : M A) fr g :
  is_local c "connected" = true →
  (require_connection c;; k) fr g =
    match fr !! "connected" with
    | None => (Raise (UnboundLocalError "connected"), fr, g)
    | Some v => k (passed_frame v fr) (passed_state v g)
    end.
Proof.
  intros Hloc. unfold bind at 1. rewrite require_connection_local by done.
  unfold passed_frame, passed_state.
  destruct (fr !! "connected") as [v|]; [|reflexivity].
  by destruct (truthy v).
Qed.

Lemma run_eq {A} (c : M A) g : run c g = ((c ∅ g).1.1, (c ∅ g).2).
Proof. unfold run. by destruct (c ∅ g) as [[??]?]. Qed.

(** A data handler entered with [connected] unbound stops at its first line. *)
Lemma endpoint_unbound r fr g :
  data_handler r = true →
  fr !! "connected" = None →
  endpoint r fr g = (Raise (UnboundLocalError "connected"), fr, g).
Proof.
  intros Hr Hfr.
  destruct r; try discriminate; simpl;
    unfold get_accounts, get_positions, get_orders, place_order,
      cancel_order, get_market_data;
    rewrite guarded_local by reflexivity; by rewrite Hfr.
Qed.

Lemma call_endpoint_unbound r fr g :
  data_handler r = true →
  call (endpoint r) fr g = (Raise (UnboundLocalError "connected"), fr, g).
Proof.
  intros Hr. rewrite call_eq, endpoint_unbound; done.
Qed.

Lemma verify_api_key_eq api_key fr g :
  verify_api_key api_key fr g =
    if String.eqb api_key API_KEY
    then (Return api_key, fr, g)
    else (Raise (HTTPException 401 "Invalid API Key"), fr, g).
Proof. unfold verify_api_key. by destruct (String.eqb api_key API_KEY). Qed.

Lemma authenticate_eq header fr g :
  authenticate header fr g =
    if key_accepted header
    then (Return API_KEY, fr, g)
    else (Raise (key_rejection header), fr, g).
Proof.
  unfold authenticate, api_key_header, key_accepted, key_rejection, bind.
  destruct header as [s|]; [|done].
  destruct (String.eqb s "") eqn:Hempty; simpl; [done|].
  unfold ret. rewrite verify_api_key_eq.
  destruct (String.eqb s API_KEY) eqn:Hkey; [|done].
  apply String.eqb_eq in Hkey. by subst s.
Qed.

Lemma key_accepted_true header :
  key_accepted header = true ↔ header = Some API_KEY ∧ API_KEY ≠ "".
Proof.
  destruct header as [s|]; simpl.
  - rewrite andb_true_iff, negb_true_iff, String.eqb_neq, String.eqb_eq.
    split.
    + intros [Hne ->]. done.
    + intros [[= ->] Hne]. done.
  - split; [discriminate | intros [? _]; discriminate].
Qed.

Lemma key_accepted_right_key : API_KEY ≠ "" → key_accepted (Some API_KEY) = true.
Proof. intros Hne. by apply key_accepted_true. Qed.

Lemma serve_eq api_key r g :
  run (serve api_key r) g =
    if requires_api_key r && negb (key_accepted api_key)
    then (Raise (key_rejection api_key), g)
    else run (endpoint r) g.
Proof.
  rewrite !run_eq. unfold serve.
  destruct (requires_api_key r); simpl.
  - unfold bind. rewrite authenticate_eq.
    destruct (key_accepted api_key); simpl; [|done].
    by rewrite call_eq.
  - unfold bind, ret. by rewrite call_eq.
Qed.

Lemma connect_eq fr g :
  connect fr g =
    match server_state (connect_effect g) !! "status" with
    | Some status =>
        (Return (VDict (mkdict [
           ("success", VBool true);
           ("status", status);
           ("timestamp", VStr (utcnow (connect_effect g)))])),
         fr, connect_effect g)
    | None => (Raise (KeyError "status"), fr, connect_effect g)
    end.
Proof.
  unfold connect. unfold bind at 1. rewrite call_eq, connect_to_ib_eq. simpl.
  unfold bind at 1, server_state_getitem.
  by destruct (server_state (connect_effect g) !! "status").
Qed.

Lemma disconnect_eq fr g :
  disconnect fr g =
    match server_state (disconnect_effect g) !! "status" with
    | Some status =>
        (Return (VDict (mkdict [
           ("success", VBool true);
           ("status", status);
           ("timestamp", VStr (utcnow (disconnect_effect g)))])),
         fr, disconnect_effect g)
    | None => (Raise (KeyError "status"), fr, disconnect_effect g)
    end.
Proof.
  unfold disconnect. unfold bind at 1.
  rewrite call_eq, disconnect_from_ib_eq. simpl.
  unfold bind at 1, server_state_getitem.
  by destruct (server_state (disconnect_effect g) !! "status").
Qed.

(** The state a request leaves behind. *)
Lemma run_endpoint_state r g :
  (run (endpoint r) g).2 =
    match r with
    | POST_connect => connect_effect g
    | POST_disconnect => disconnect_effect g
    | _ => g
    end.
Proof.
  rewrite run_eq. simpl.
  destruct r; try (by rewrite endpoint_unbound); simpl; try reflexivity.
  - rewrite connect_eq.
    by destruct (server_state (connect_effect g) !! "status").
  - rewrite disconnect_eq.
    by destruct (server_state (disconnect_effect g) !! "status").
Qed.

Lemma step_cases ev g :
  step ev g = g ∨ step ev g = connect_effect g ∨
  step ev g = disconnect_effect g ∨
  ∃ now, step ev g = State (connected g) (server_state g) now.
Proof.
  destruct ev as [api_key r|now|]; simpl.
  - rewrite serve_eq.
    destruct (requires_api_key r && negb (key_accepted api_key)); [by left|].
    rewrite run_endpoint_state. destruct r; auto.
  - right; right; right. by exists now.
  - right; right; left. rewrite run_eq. unfold shutdown_event, bind.
    by rewrite call_eq, disconnect_from_ib_eq.
Qed.

(** *** The session invariant *)

Lemma initial_state_consistent now : session_consistent (initial_state now).
Proof. exists false. repeat split; [by eexists | discriminate | discriminate]. Qed.

Lemma after_connect_status g :
  server_state (after_connect g) !! "status" = Some (VStr "connected").
Proof. simpl. by simplify_map_eq. Qed.

Lemma after_connect_flag g :
  server_state (after_connect g) !! "connected" = Some (VBool true).
Proof. simpl. by simplify_map_eq. Qed.

Lemma after_connect_consistent g : session_consistent (after_connect g).
Proof.
  exists true. rewrite after_connect_status, after_connect_flag.
  repeat split. by eexists.
Qed.

Lemma connect_effect_consistent g :
  session_consistent g → session_consistent (connect_effect g).
Proof.
  intros Hg. unfold connect_effect.
  destruct (truthy (connected g)); [done | apply after_connect_consistent].
Qed.

Lemma disconnect_effect_consistent g :
  session_consistent g → session_consistent (disconnect_effect g).
Proof.
  intros Hg. unfold disconnect_effect.
  destruct (truthy (connected g)); [|done].
  exists false. repeat split; try discriminate.
  simpl. rewrite lookup_insert_eq. by eexists.
Qed.

Lemma reachable_consistent g : reachable g → session_consistent g.
Proof.
  induction 1 as [now|ev g Hg IH]; [apply initial_state_consistent|].
  destruct (step_cases ev g) as [->|[->|[->|[now ->]]]];
    auto using connect_effect_consistent, disconnect_effect_consistent.
Qed.

(** After [connect_to_ib] the session is live, whatever it was before. *)
Lemma connect_effect_connected g :
  session_consistent g →
  connected (connect_effect g) = VBool true ∧
  server_state (connect_effect g) !! "connected" = Some (VBool true) ∧
  server_state (connect_effect g) !! "status" = Some (VStr "connected").
Proof.
  intros (b & Hb & _ & Hlive). unfold connect_effect.
  rewrite Hb. simpl. destruct b.
  - destruct Hlive as [? ?]; done.
  - by rewrite after_connect_status, after_connect_flag.
Qed.

Lemma connect_effect_utcnow g : utcnow (connect_effect g) = utcnow g.
Proof. unfold connect_effect. by destruct (truthy (connected g)). Qed.

Lemma passed_state_utcnow v g : utcnow (passed_state v g) = utcnow g.
Proof.
  unfold passed_state. destruct (truthy v); [done|apply connect_effect_utcnow].
Qed.

Lemma connect_effect_truthy g : truthy (connected (connect_effect g)) = true.
Proof. unfold connect_effect. by destruct (truthy (connected g)) eqn:E. Qed.

(** *** Placing an order *)

Lemma check_required_eq fields order_data fr g :
  check_required fields order_data fr g =
    match first_missing fields order_data with
    | None => (Return (), fr, g)
    | Some field =>
        (Raise (HTTPException 400 ("Missing required field: " ++ field)), fr, g)
    end.
Proof.
  induction fields as [|field rest IH]; simpl; [done|].
  by destruct (order_data !! field).
Qed.

Lemma first_missing_None fields order_data :
  first_missing fields order_data = None ↔
  ∀ field, field ∈ fields → is_Some (order_data !! field).
Proof.
  induction fields as [|f rest IH]; simpl.
  - split; [|done]. intros _ field Hin. by apply elem_of_nil in Hin.
  - destruct (order_data !! f) as [x|] eqn:Hf.
    + rewrite IH. split.
      * intros Hrest field [->|Hin]%elem_of_cons; [by rewrite Hf | auto].
      * intros Hall field Hin. apply Hall. by right.
    + split; [discriminate|]. intros Hall.
      destruct (Hall f) as [x Hx]; [by left | congruence].
Qed.

Lemma first_missing_Some fields order_data field :
  first_missing fields order_data = Some field →
  field ∈ fields ∧ order_data !! field = None.
Proof.
  induction fields as [|f rest IH]; simpl; [discriminate|].
  destruct (order_data !! f) eqn:Hf.
  - intros [? ?]%IH. split; [by right | done].
  - intros [= <-]. split; [by left | done].
Qed.

Lemma new_order_eq order_data fr g :
  has_required_fields order_data →
  ∃ o, new_order order_data fr g = (Return o, fr, g) ∧
    o !! "orderId" = Some (VInt 2) ∧
    o !! "status" = Some (VStr "PreSubmitted") ∧
    o !! "filled" = Some (VInt 0) ∧
    o !! "remaining" = order_data !! "quantity" ∧
    o !! "totalQuantity" = order_data !! "quantity" ∧
    o !! "lmtPrice" = Some (get order_data "limitPrice" (VFloat 0)) ∧
    o !! "auxPrice" = Some (get order_data "stopPrice" (VFloat 0)).
Proof.
  intros Hreq.
  destruct (Hreq "symbol") as [s Hs]; [set_solver|].
  destruct (Hreq "action") as [a Ha]; [set_solver|].
  destruct (Hreq "quantity") as [q Hq]; [set_solver|].
  destruct (Hreq "orderType") as [t Ht]; [set_solver|].
  unfold new_order, getitem, bind, ret. rewrite Ha, Hq, Ht, Hs.
  eexists. split; [reflexivity|]. unfold mkdict. simpl.
  repeat split; by simplify_map_eq.
Qed.

Lemma place_order_accepts order_data fr g v :
  fr !! "connected" = Some v →
  has_required_fields order_data →
  ∃ o, place_order order_data fr g =
         (Return (VDict o), passed_frame v fr, passed_state v g) ∧
    o !! "orderId" = Some (VInt 2) ∧
    o !! "status" = Some (VStr "PreSubmitted") ∧
    o !! "filled" = Some (VInt 0) ∧
    o !! "remaining" = order_data !! "quantity" ∧
    o !! "totalQuantity" = order_data !! "quantity" ∧
    o !! "lmtPrice" = Some (get order_data "limitPrice" (VFloat 0)) ∧
    o !! "auxPrice" = Some (get order_data "stopPrice" (VFloat 0)).
Proof.
  intros Hfr Hreq. unfold place_order.
  rewrite guarded_local, Hfr by reflexivity.
  unfold bind at 1. rewrite check_required_eq.
  rewrite (proj2 (first_missing_None _ _) Hreq).
  destruct (new_order_eq order_data (passed_frame v fr) (passed_state v g) Hreq)
    as (o & Ho & Hprops).
  exists o. split; [|done]. unfold bind, ret. by rewrite Ho.
Qed.

Lemma place_order_rejects order_data fr g v field :
  fr !! "connected" = Some v →
  first_missing required_fields order_data = Some field →
  place_order order_data fr g =
    (Raise (HTTPException 400 ("Missing required field: " ++ field)),
     passed_frame v fr, passed_state v g).
Proof.
  intros Hfr Hmiss. unfold place_order.
  rewrite guarded_local, Hfr by reflexivity.
  unfold bind at 1. by rewrite check_required_eq, Hmiss.
Qed.

(** *** A data handler entered with [connected] bound *)

Lemma endpoint_bound r fr g v :
  data_handler r = true →
  fr !! "connected" = Some v →
  (endpoint r fr g).1.2 = passed_frame v fr ∧
  (endpoint r fr g).2 = passed_state v g ∧
  ((∃ resp, (endpoint r fr g).1.1 = Return resp) ∨
   (∃ order_data field,
      r = POST_orders order_data ∧
      first_missing required_fields order_data = Some field ∧
      (endpoint r fr g).1.1 =
        Raise (HTTPException 400 ("Missing required field: " ++ field)))).
Proof.
  intros Hr Hfr.
  destruct r; try discriminate; simpl;
    unfold get_accounts, get_positions, get_orders,
      cancel_order, get_market_data;
    try (rewrite guarded_local, Hfr by reflexivity;
         repeat split; left; by eexists).
  destruct (first_missing required_fields order_data) as [field|] eqn:Hmiss.
  - rewrite (place_order_rejects _ _ _ _ _ Hfr Hmiss).
    repeat split. right. by exists order_data, field.
  - pose proof (proj1 (first_missing_None _ _) Hmiss) as Hreq.
    destruct (place_order_accepts order_data fr g v Hfr Hreq) as (o & -> & _).
    repeat split. left. by eexists.
Qed.

Lemma serve_data_handler_unbound api_key r g :
  key_accepted api_key = true →
  data_handler r = true →
  run (serve api_key r) g = (Raise (UnboundLocalError "connected"), g).
Proof.
  intros Hkey Hr. rewrite serve_eq, Hkey.
  rewrite andb_false_r, run_eq, endpoint_unbound; done.
Qed.

Lemma serve_right_key r g :
  API_KEY ≠ "" →
  run (serve (Some API_KEY) r) g = run (endpoint r) g.
Proof.
  intros Hne. rewrite serve_eq, key_accepted_right_key by done.
  by rewrite andb_false_r.
Qed.

Lemma serve_rejected api_key r g :
  requires_api_key r = true →
  key_accepted api_key = false →
  run (serve api_key r) g = (Raise (key_rejection api_key), g).
Proof. intros Hr Hkey. by rewrite serve_eq, Hr, Hkey. Qed.

Lemma cancel_order_bound order_id fr g v :
  fr !! "connected" = Some v →
  cancel_order order_id fr g =
    (Return (VDict (mkdict [
       ("orderId", VInt order_id);
       ("status", VStr "Cancelled");
       ("message", VStr "Order cancelled successfully");
       ("timestamp", VStr (utcnow g))])),
     passed_frame v fr, passed_state v g).
Proof.
  intros Hfr. unfold cancel_order.
  rewrite guarded_local, Hfr by reflexivity.
  unfold bind, utcnow_isoformat, ret. by rewrite passed_state_utcnow.
Qed.

(** ** Scoping of [connected] in the data handlers *)

(** C2. Each of get_accounts, get_positions, get_orders, place_order,
    cancel_order and get_market_data binds the name [connected] and declares
    no name global, so the name is local to it; every call of such a handler
    reads the local before any assignment and raises
    [UnboundLocalError], whatever the module-level connection flag is, and
    leaves the module state as it was.  The same holds for the whole request
    that carries the configured, non-empty API key: the 503 branch, the
    validation and the mock response are never reached. *)
Theorem data_handlers_raise_UnboundLocalError :
  Forall (λ c, "connected" ∈ co_bound c ∧ co_global c = [])
    [get_accounts_code; get_positions_code; get_orders_code;
     place_order_code; cancel_order_code; get_market_data_code] ∧
  ∀ r g, data_handler r = true →
    (∀ fr, call (endpoint r) fr g =
             (Raise (UnboundLocalError "connected"), fr, g)) ∧
    (API_KEY ≠ "" →
     run (serve (Some API_KEY) r) g =
       (Raise (UnboundLocalError "connected"), g)).
Proof.
  split.
  - repeat constructor; set_solver.
  - intros r g Hr. split.
    + intros fr. by apply call_endpoint_unbound.
    + intros Hne. apply serve_data_handler_unbound; [|done].
      by apply key_accepted_right_key.
Qed.

(** ** The API key *)

(** C4, as the code has it.  On a route that depends on [verify_api_key], a
    request whose X-API-Key is a non-empty string other than [API_KEY] is
    answered with HTTPException 401 "Invalid API Key", the test being
    equality of strings; a request without the header, or with an empty one,
    is answered with "Not authenticated" by [APIKeyHeader], under the status
    code of the library.  In both cases the endpoint function is not run and
    the module state is unchanged; a non-empty key equal to [API_KEY] lets
    the endpoint run. *)
Theorem invalid_api_key_rejected api_key r g :
  requires_api_key r = true →
  (∀ s, api_key = Some s → s ≠ "" → s ≠ API_KEY →
     run (serve api_key r) g =
       (Raise (HTTPException 401 "Invalid API Key"), g)) ∧
  (api_key = None ∨ api_key = Some "" →
     run (serve api_key r) g =
       (Raise (HTTPException not_authenticated_status "Not authenticated"), g)) ∧
  (∀ s, api_key = Some s → s ≠ "" → s = API_KEY →
     run (serve api_key r) g = run (endpoint r) g).
Proof.
  intros Hr. split; [|split].
  - intros s -> Hne Hkey. rewrite serve_rejected; try done; simpl.
    + apply String.eqb_neq in Hne. by rewrite Hne.
    + apply String.eqb_neq in Hkey. rewrite Hkey. apply andb_false_r.
  - intros [-> | ->]; by rewrite serve_rejected.
  - intros s -> Hne ->. by apply serve_right_key.
Qed.


(** ** Connecting *)

(** C10. The [try] block of [connect_to_ib] returns True from every frame and
    state, so its [except] block is never entered, and every call of
    [connect_to_ib] returns True.  From every reachable state the call leaves
    the flag [connected] true, [server_state["connected"]] true and
    [server_state["status"]] equal to "connected"; the handler [connect]
    returns success true and status "connected", and so does the request
    POST /connect that carries the configured, non-empty API key. *)
Theorem connect_to_ib_always_succeeds :
  (∀ fr g, ∃ g', connect_to_ib_try fr g = (Return (VBool true), fr, g')) ∧
  (∀ fr g, ∃ g', call connect_to_ib fr g = (Return (VBool true), fr, g')) ∧
  ∀ g, reachable g →
    ∃ g',
      (∀ fr, call connect_to_ib fr g = (Return (VBool true), fr, g')) ∧
      connected g' = VBool true ∧
      server_state g' !! "connected" = Some (VBool true) ∧
      server_state g' !! "status" = Some (VStr "connected") ∧
      run (call connect) g =
        (Return (VDict (mkdict [
           ("success", VBool true);
           ("status", VStr "connected");
           ("timestamp", VStr (utcnow g))])), g') ∧
      (API_KEY ≠ "" →
       run (serve (Some API_KEY) POST_connect) g =
         (Return (VDict (mkdict [
            ("success", VBool true);
            ("status", VStr "connected");
            ("timestamp", VStr (utcnow g))])), g')).
Proof.
  split; [|split].
  - intros fr g. exists (after_connect g). apply connect_to_ib_try_eq.
  - intros fr g. exists (connect_effect g).
    by rewrite call_eq, connect_to_ib_eq.
  - intros g Hg%reachable_consistent.
    destruct (connect_effect_connected g Hg) as (Hc & Hflag & Hstatus).
    assert (run connect g =
              (Return (VDict (mkdict [
                 ("success", VBool true);
                 ("status", VStr "connected");
                 ("timestamp", VStr (utcnow g))])), connect_effect g))
      as Hconnect.
    { rewrite run_eq, connect_eq, Hstatus, connect_effect_utcnow. reflexivity. }
    exists (connect_effect g). repeat split; try done.
    + intros fr. by rewrite call_eq, connect_to_ib_eq.
    + rewrite run_eq, call_eq. rewrite run_eq in Hconnect.
      by injection Hconnect as -> ->.
    + intros Hne. by rewrite serve_right_key.
Qed.

(** ** The guard of the data handlers *)

(** C1, as the code has it.  No request to a data handler ends with 503,
    whatever the frame and the connection state.  Entered with [connected]
    bound, a handler that finds it false calls [connect_to_ib] and goes on
    with a live session; the only change it makes to the module state is the
    one [connect_to_ib] makes, so no order is stored, and the only error it
    returns is the 400 of [place_order] for a missing required field. *)
Theorem data_handlers_reconnect_on_read r fr g :
  data_handler r = true →
  (∀ d, (endpoint r fr g).1.1 ≠ Raise (HTTPException 503 d)) ∧
  (∀ v, fr !! "connected" = Some v →
     (endpoint r fr g).2 = passed_state v g ∧
     (truthy v = false →
      (endpoint r fr g).2 = connect_effect g ∧
      truthy (connected (endpoint r fr g).2) = true) ∧
     (∀ e, (endpoint r fr g).1.1 = Raise e →
        ∃ order_data field,
          r = POST_orders order_data ∧
          first_missing required_fields order_data = Some field ∧
          e = HTTPException 400 ("Missing required field: " ++ field))).
Proof.
  intros Hr. split.
  - intros d. destruct (fr !! "connected") as [v|] eqn:Hfr.
    + destruct (endpoint_bound r fr g v Hr Hfr)
        as (_ & _ & [[resp ->]|(od & field & _ & _ & ->)]); discriminate.
    + by rewrite endpoint_unbound.
  - intros v Hfr.
    destruct (endpoint_bound r fr g v Hr Hfr) as (_ & Hst & Hout).
    split; [done|]. split.
    + intros Hv. rewrite Hst. unfold passed_state. rewrite Hv.
      split; [done | apply connect_effect_truthy].
    + intros e He.
      destruct Hout as [[resp Hresp]|(od & field & -> & Hmiss & Hraise)];
        [congruence|].
      exists od, field. repeat split; [done|congruence].
Qed.

(** ** Orders *)

(** C3, as the code has it.  Entered with [connected] bound, [place_order]
    answers a request that carries the four required fields with an order
    whose [filled] is 0, whose [remaining] and [totalQuantity] are the
    requested quantity, and whose [status] is "PreSubmitted". *)
Theorem place_order_returns_presubmitted order_data fr g v :
  fr !! "connected" = Some v →
  has_required_fields order_data →
  ∃ o q,
    order_data !! "quantity" = Some q ∧
    place_order order_data fr g =
      (Return (VDict o), passed_frame v fr, passed_state v g) ∧
    o !! "filled" = Some (VInt 0) ∧
    o !! "remaining" = Some q ∧
    o !! "totalQuantity" = Some q ∧
    o !! "status" = Some (VStr "PreSubmitted").
Proof.
  intros Hfr Hreq.
  destruct (place_order_accepts order_data fr g v Hfr Hreq)
    as (o & Ho & _ & Hstatus & Hfilled & Hrem & Htot & _).
  destruct (Hreq "quantity") as [q Hq]; [set_solver|].
  exists o, q. rewrite Hq in Hrem, Htot. done.
Qed.

(** The body of [place_order] keeps no counter: two placements in a row,
    each entered with [connected] bound and carrying the four required
    fields, would both be answered with the order id 2. *)
Lemma place_order_fixed_orderId od1 od2 fr1 fr2 g v1 v2 :
  fr1 !! "connected" = Some v1 →
  fr2 !! "connected" = Some v2 →
  has_required_fields od1 →
  has_required_fields od2 →
  ∃ o1 o2 g1 g2,
    place_order od1 fr1 g = (Return (VDict o1), passed_frame v1 fr1, g1) ∧
    place_order od2 fr2 g1 = (Return (VDict o2), passed_frame v2 fr2, g2) ∧
    order_id o1 = Some 2 ∧
    order_id o2 = Some 2.
Proof.
  intros Hfr1 Hfr2 Hreq1 Hreq2.
  destruct (place_order_accepts od1 fr1 g v1 Hfr1 Hreq1) as (o1 & Ho1 & Hid1 & _).
  destruct (place_order_accepts od2 fr2 (passed_state v1 g) v2 Hfr2 Hreq2)
    as (o2 & Ho2 & Hid2 & _).
  exists o1, o2, (passed_state v1 g), (passed_state v2 (passed_state v1 g)).
  unfold order_id. by rewrite Hid1, Hid2.
Qed.

(** C7, as the code has it.  Entered with [connected] bound, [place_order]
    checks that symbol, action, quantity and orderType are keys of the
    request, in this order: the first one that is missing ends the request
    with 400 and no change to the module state but the one of
    [connect_to_ib].  A request with the four keys is accepted whatever its
    quantity and its price fields: the quantity is copied, and an absent
    limitPrice or stopPrice is reported as 0.0. *)
Theorem place_order_validates_required_fields order_data fr g v :
  fr !! "connected" = Some v →
  match first_missing required_fields order_data with
  | Some field =>
      place_order order_data fr g =
        (Raise (HTTPException 400 ("Missing required field: " ++ field)),
         passed_frame v fr, passed_state v g)
  | None =>
      ∃ o,
        place_order order_data fr g =
          (Return (VDict o), passed_frame v fr, passed_state v g) ∧
        o !! "totalQuantity" = order_data !! "quantity" ∧
        o !! "lmtPrice" = Some (get order_data "limitPrice" (VFloat 0)) ∧
        o !! "auxPrice" = Some (get order_data "stopPrice" (VFloat 0))
  end.
Proof.
  intros Hfr.
  destruct (first_missing required_fields order_data) as [field|] eqn:Hmiss.
  - by apply place_order_rejects.
  - pose proof (proj1 (first_missing_None _ _) Hmiss) as Hreq.
    destruct (place_order_accepts order_data fr g v Hfr Hreq)
      as (o & Ho & _ & _ & _ & _ & Htot & Hlmt & Haux).
    by exists o.
Qed.

(** C8, as the code has it.  [cancel_order] looks no order up: it never ends
    with 404, and entered with [connected] bound it answers every order id
    with a confirmation of status "Cancelled". *)
Theorem cancel_order_never_404 order_id fr g :
  (∀ d, (cancel_order order_id fr g).1.1 ≠ Raise (HTTPException 404 d)) ∧
  (∀ v, fr !! "connected" = Some v →
     cancel_order order_id fr g =
       (Return (VDict (mkdict [
          ("orderId", VInt order_id);
          ("status", VStr "Cancelled");
          ("message", VStr "Order cancelled successfully");
          ("timestamp", VStr (utcnow g))])),
        passed_frame v fr, passed_state v g)).
Proof.
  split.
  - intros d. unfold cancel_order. rewrite guarded_local by reflexivity.
    by destruct (fr !! "connected").
  - intros v Hfr. by apply cancel_order_bound.
Qed.

Lemma py_add_zero q x :
  as_number q = Some x →
  x ≠ NumNaN →
  ∃ sum, py_add (VInt 0) q = Some sum ∧ py_num_eq sum q = true.
Proof.
  intros Hq Hx. unfold py_add, py_num_eq. simpl. rewrite Hq.
  eexists. split; [reflexivity|].
  destruct x as [z|p|negative|]; simpl; try done.
  - apply Z.eqb_refl.
  - apply Qeq_bool_iff, Qplus_0_l.
  - by destruct negative.
Qed.


(** The orders the two bodies would show.  Entered with [connected] bound,
    [get_orders] returns its list, and the order [place_order] returns
    satisfies the quantity equation when the requested quantity is a number
    other than NaN. *)
Lemma order_bodies_quantity_equation fr g v :
  fr !! "connected" = Some v →
  get_orders fr g =
    (Return (VList (VDict <$> mock_orders)),
     passed_frame v fr, passed_state v g) ∧
  (∀ order_data q x o fr' g',
     order_data !! "quantity" = Some q →
     as_number q = Some x →
     x ≠ NumNaN →
     place_order order_data fr g = (Return (VDict o), fr', g') →
     quantity_equation o).
Proof.
  intros Hfr. split.
  - unfold get_orders. by rewrite guarded_local, Hfr.
  - intros od q x o fr' g' Hq Hx Hnan Hret.
    destruct (first_missing required_fields od) as [field|] eqn:Hmiss.
    + rewrite (place_order_rejects _ _ _ _ _ Hfr Hmiss) in Hret. discriminate.
    + pose proof (proj1 (first_missing_None _ _) Hmiss) as Hreq.
      destruct (place_order_accepts od fr g v Hfr Hreq)
        as (o' & Ho & _ & _ & Hfilled & Hrem & Htot & _).
      rewrite Ho in Hret. injection Hret as <- _ _.
      destruct (py_add_zero q x Hx Hnan) as (sum & Hsum & Heq).
      exists (VInt 0), q, q, sum. rewrite Hq in Hrem, Htot. done.
Qed.







(** ** More on the session *)

Lemma step_connect g :
  API_KEY ≠ "" →
  step (Request (Some API_KEY) POST_connect) g = connect_effect g.
Proof.
  intros Hne. simpl. rewrite serve_right_key by done.
  apply run_endpoint_state.
Qed.

Lemma step_disconnect g :
  API_KEY ≠ "" →
  step (Request (Some API_KEY) POST_disconnect) g = disconnect_effect g.
Proof.
  intros Hne. simpl. rewrite serve_right_key by done.
  apply run_endpoint_state.
Qed.

Lemma step_connect_cases api_key g :
  step (Request api_key POST_connect) g = g ∨
  step (Request api_key POST_connect) g = connect_effect g.
Proof.
  simpl. rewrite serve_eq.
  destruct (requires_api_key POST_connect && negb (key_accepted api_key));
    [by left|].
  right. apply run_endpoint_state.
Qed.

Lemma shutdown_event_eq fr g :
  shutdown_event fr g = (Return (), fr, disconnect_effect g).
Proof.
  unfold shutdown_event, bind. by rewrite call_eq, disconnect_from_ib_eq.
Qed.

Lemma connect_effect_idem g : connect_effect (connect_effect g) = connect_effect g.
Proof.
  unfold connect_effect at 1. by rewrite connect_effect_truthy.
Qed.

Lemma disconnect_effect_falsy g :
  truthy (connected (disconnect_effect g)) = false.
Proof. unfold disconnect_effect. by destruct (truthy (connected g)) eqn:E. Qed.

Lemma disconnect_effect_idem g :
  disconnect_effect (disconnect_effect g) = disconnect_effect g.
Proof.
  unfold disconnect_effect at 1. by rewrite disconnect_effect_falsy.
Qed.

(** X1. [disconnect_from_ib] never fails: its [try] block returns True from
    every frame and state, every call returns True and leaves the flag
    [connected] false, and a second call changes nothing. *)
Theorem disconnect_from_ib_always_succeeds :
  (∀ fr g, ∃ g', disconnect_from_ib_try fr g = (Return (VBool true), fr, g')) ∧
  ∀ fr g, ∃ g',
    call disconnect_from_ib fr g = (Return (VBool true), fr, g') ∧
    truthy (connected g') = false ∧
    call disconnect_from_ib fr g' = (Return (VBool true), fr, g').
Proof.
  split.
  - intros fr g. eexists. apply disconnect_from_ib_try_eq.
  - intros fr g. exists (disconnect_effect g).
    rewrite !call_eq, !disconnect_from_ib_eq. simpl.
    by rewrite disconnect_effect_falsy, disconnect_effect_idem.
Qed.

(** X2. Connecting is idempotent: once a call of [connect_to_ib] has gone
    through, POST /connect changes nothing, however far the clock has moved;
    in particular [server_state["last_connected"]] is not refreshed. *)
Theorem connect_twice_changes_nothing g now :
  step (Request (Some API_KEY) POST_connect) (at_time now (connect_effect g)) =
    at_time now (connect_effect g) ∧
  server_state
    (step (Request (Some API_KEY) POST_connect) (at_time now (connect_effect g)))
    !! "last_connected" =
  server_state (connect_effect g) !! "last_connected".
Proof.
  assert (step (Request (Some API_KEY) POST_connect)
            (at_time now (connect_effect g)) = at_time now (connect_effect g))
    as Hstep.
  { destruct (step_connect_cases (Some API_KEY) (at_time now (connect_effect g)))
      as [->| ->]; [done|].
    unfold connect_effect at 1. simpl. by rewrite connect_effect_truthy. }
  by rewrite Hstep.
Qed.

(** X3. With a non-empty API key configured, a connection made at clock
    reading [utcnow g] and then closed, both by requests that carry the key,
    leaves the flag false, [server_state["connected"]] false and the status
    "disconnected", while [last_connected] and [ib_gateway_version] keep what
    the connection wrote. *)
Theorem connect_then_disconnect g :
  API_KEY ≠ "" →
  truthy (connected g) = false →
  let g' := disconnect_effect (connect_effect g) in
  step (Request (Some API_KEY) POST_disconnect)
    (step (Request (Some API_KEY) POST_connect) g) = g' ∧
  connected g' = VBool false ∧
  server_state g' !! "connected" = Some (VBool false) ∧
  server_state g' !! "status" = Some (VStr "disconnected") ∧
  server_state g' !! "last_connected" = Some (VStr (utcnow g)) ∧
  server_state g' !! "ib_gateway_version" = Some (VStr "Demo Version").
Proof.
  intros Hne Hg. cbv zeta. rewrite step_connect, step_disconnect by done.
  split; [done|].
  unfold connect_effect. rewrite Hg. unfold disconnect_effect. simpl.
  repeat split; by simplify_map_eq.
Qed.

(** *** Invariants of the reachable states *)

Lemma initial_state_in_sync now : session_in_sync (initial_state now).
Proof.
  exists false, "initializing".
  repeat split; try done; try (by left); discriminate.
Qed.

Lemma connect_effect_in_sync g :
  session_in_sync g → session_in_sync (connect_effect g).
Proof.
  intros Hg. unfold connect_effect.
  destruct (truthy (connected g)); [done|].
  exists true, "connected".
  rewrite after_connect_status, after_connect_flag.
  repeat split; try done. by right; left.
Qed.

Lemma disconnect_effect_in_sync g :
  session_in_sync g → session_in_sync (disconnect_effect g).
Proof.
  intros Hg. unfold disconnect_effect.
  destruct (truthy (connected g)); [|done].
  exists false, "disconnected". simpl.
  repeat split; try done; try (by simplify_map_eq);
    try (by right; right); discriminate.
Qed.

Lemma reachable_in_sync g : reachable g → session_in_sync g.
Proof.
  induction 1 as [now|ev g Hg IH]; [apply initial_state_in_sync|].
  destruct (step_cases ev g) as [->|[->|[->|[now ->]]]];
    auto using connect_effect_in_sync, disconnect_effect_in_sync.
Qed.

Lemma initial_state_identity now : identity_kept (initial_state now).
Proof.
  repeat split; try done. by exists now.
Qed.

Lemma connect_effect_identity g :
  identity_kept g → identity_kept (connect_effect g).
Proof.
  intros Hg. unfold connect_effect.
  destruct (truthy (connected g)); [done|].
  destruct Hg as (Hdom & Huser & Hacct & [t Ht] & Herr).
  repeat split; simpl; try by simplify_map_eq.
  - rewrite !dom_insert_L, Hdom. unfold server_state_keys. simpl. set_solver.
  - exists t. by simplify_map_eq.
Qed.

Lemma disconnect_effect_identity g :
  identity_kept g → identity_kept (disconnect_effect g).
Proof.
  intros Hg. unfold disconnect_effect.
  destruct (truthy (connected g)); [|done].
  destruct Hg as (Hdom & Huser & Hacct & [t Ht] & Herr).
  repeat split; simpl; try by simplify_map_eq.
  - rewrite !dom_insert_L, Hdom. unfold server_state_keys. simpl. set_solver.
  - exists t. by simplify_map_eq.
Qed.

Lemma reachable_identity g : reachable g → identity_kept g.
Proof.
  induction 1 as [now|ev g Hg IH]; [apply initial_state_identity|].
  destruct (step_cases ev g) as [->|[->|[->|[now ->]]]];
    auto using connect_effect_identity, disconnect_effect_identity.
Qed.

(** X4. In every reachable state the flag [connected] is a bool,
    [server_state["connected"]] holds the same bool, and
    [server_state["status"]] is "initializing", "connected" or
    "disconnected", and is "connected" exactly when the flag is true: the
    statuses "connecting" and "error" are never left behind. *)
Theorem reachable_session_in_sync g :
  reachable g →
  ∃ (b : bool) (s : string),
    connected g = VBool b ∧
    server_state g !! "connected" = Some (VBool b) ∧
    server_state g !! "status" = Some (VStr s) ∧
    (s = "initializing" ∨ s = "connected" ∨ s = "disconnected") ∧
    (s = "connected" ↔ b = true).
Proof. intros Hg. by apply reachable_in_sync. Qed.

(** X5. In every reachable state [server_state] has exactly its eight keys,
    [user_id] and [account_id] are the ones computed from the environment at
    import, [startup_time] is still a string and [error_message] is still
    None. *)
Theorem reachable_identity_kept g :
  reachable g →
  dom (server_state g) = server_state_keys ∧
  server_state g !! "user_id" = Some (VStr USER_ID) ∧
  server_state g !! "account_id" = Some (VStr ("ib_" ++ IB_USERNAME)) ∧
  (∃ t, server_state g !! "startup_time" = Some (VStr t)) ∧
  server_state g !! "error_message" = Some VNone.
Proof. intros Hg. by apply reachable_identity. Qed.

(** ** More on the endpoints *)

Lemma health_check_eq fr g :
  health_check fr g =
    (Return (VDict (mkdict [
       ("status", VStr "healthy");
       ("timestamp", VStr (utcnow g));
       ("service", VStr "ibearmy");
       ("user_id", VStr USER_ID);
       ("ib_connection", connected g)])), fr, g).
Proof.
  unfold health_check, load_connected. by rewrite health_check_code_global.
Qed.

(** X6. GET /health needs no key and changes nothing; in every reachable
    state the [ib_connection] it reports is the bool [get_status] returns
    under [connected], which is what GET /status answers to a request that
    carries the configured, non-empty API key. *)
Theorem health_agrees_with_status api_key g :
  reachable g →
  ∃ (b : bool) (h st : dict),
    run (serve api_key GET_health) g = (Return (VDict h), g) ∧
    h !! "status" = Some (VStr "healthy") ∧
    h !! "ib_connection" = Some (VBool b) ∧
    run (call get_status) g = (Return (VDict st), g) ∧
    st !! "connected" = Some (VBool b) ∧
    (API_KEY ≠ "" →
     run (serve (Some API_KEY) GET_status) g = (Return (VDict st), g)).
Proof.
  intros (b & s & Hflag & Hsync & _)%reachable_in_sync.
  exists b. eexists. exists (server_state g).
  split; [|split; [|split; [|split; [|split]]]].
  - rewrite serve_eq. simpl. rewrite run_eq, health_check_eq. reflexivity.
  - by simplify_map_eq.
  - rewrite Hflag. by simplify_map_eq.
  - done.
  - done.
  - intros Hne. by rewrite serve_right_key.
Qed.

(** X7. Only POST /connect and POST /disconnect, sent with the right key,
    change the module state: a request that leaves a different state behind
    is one of these two and carried [API_KEY]. *)
Theorem state_changes_need_key_and_session_route api_key r g :
  (run (serve api_key r) g).2 ≠ g →
  api_key = Some API_KEY ∧ (r = POST_connect ∨ r = POST_disconnect).
Proof.
  rewrite serve_eq.
  destruct (requires_api_key r) eqn:Hreq; simpl.
  - destruct (key_accepted api_key) eqn:Hacc; [|done]. simpl.
    apply key_accepted_true in Hacc as [-> _]. rewrite run_endpoint_state.
    destruct r; try done; auto.
  - rewrite run_endpoint_state. destruct r; try done.
Qed.

(** X8. With a non-empty API key configured, from every reachable state
    POST /disconnect with the key returns success true.  The status it
    reports is "disconnected" when the session was connected; when it was
    not, nothing changes and the status reported is the one the server
    already had. *)
Theorem disconnect_response g :
  API_KEY ≠ "" →
  reachable g →
  ∃ s,
    run (serve (Some API_KEY) POST_disconnect) g =
      (Return (VDict (mkdict [
         ("success", VBool true);
         ("status", VStr s);
         ("timestamp", VStr (utcnow g))])), disconnect_effect g) ∧
    (truthy (connected g) = true → s = "disconnected") ∧
    (truthy (connected g) = false →
     server_state g !! "status" = Some (VStr s) ∧ disconnect_effect g = g).
Proof.
  intros Hne (b & s & Hflag & _ & Hstatus & _)%reachable_in_sync.
  rewrite serve_right_key, run_eq by done. simpl. rewrite disconnect_eq.
  unfold disconnect_effect. rewrite Hflag. simpl. destruct b.
  - exists "disconnected". simpl. rewrite lookup_insert_eq. done.
  - exists s. rewrite Hstatus. done.
Qed.

(** X11. The shutdown event closes the session: from every reachable state
    it leaves the flag and [server_state["connected"]] false and a status
    that is "initializing" or "disconnected". *)
Theorem shutdown_leaves_session_closed g :
  reachable g →
  ∃ g' s,
    run shutdown_event g = (Return (), g') ∧
    connected g' = VBool false ∧
    server_state g' !! "connected" = Some (VBool false) ∧
    server_state g' !! "status" = Some (VStr s) ∧
    (s = "initializing" ∨ s = "disconnected").
Proof.
  intros Hg%reachable_in_sync%disconnect_effect_in_sync.
  destruct Hg as (b & s & Hflag & Hsync & Hstatus & Hsettled & Hlive).
  exists (disconnect_effect g), s.
  rewrite run_eq, shutdown_event_eq. simpl.
  pose proof (disconnect_effect_falsy g) as Hfalsy.
  rewrite Hflag in Hfalsy. simpl in Hfalsy. subst b.
  repeat split; try done.
  destruct Hsettled as [?|[Hs|?]]; auto.
  apply Hlive in Hs. discriminate.
Qed.

(** ** More on placing an order *)

Lemma first_missing_split fields order_data field :
  first_missing fields order_data = Some field ↔
  ∃ pre post,
    fields = (pre ++ field :: post)%list ∧
    (∀ f, f ∈ pre → is_Some (order_data !! f)) ∧
    order_data !! field = None.
Proof.
  induction fields as [|f rest IH]; simpl.
  - split; [discriminate|]. intros (pre & post & Heq & _).
    by destruct pre.
  - destruct (order_data !! f) as [x|] eqn:Hf.
    + rewrite IH. split.
      * intros (pre & post & -> & Hpre & Hmiss).
        exists (f :: pre), post. repeat split; [|done].
        intros f' [->|Hin]%elem_of_cons; [by rewrite Hf | auto].
      * intros (pre & post & Heq & Hpre & Hmiss).
        destruct pre as [|f' pre]; simpl in Heq.
        -- injection Heq as -> _. congruence.
        -- injection Heq as -> ->. exists pre, post. repeat split; [|done].
           intros f'' Hin. apply Hpre. by right.
    + split.
      * intros [= <-]. exists [], rest. repeat split; [|done].
        intros f' Hin. by apply elem_of_nil in Hin.
      * intros (pre & post & Heq & Hpre & Hmiss).
        destruct pre as [|f' pre]; simpl in Heq.
        -- by injection Heq as -> _.
        -- injection Heq as -> ->.
           destruct (Hpre f') as [x Hx]; [by left | congruence].
Qed.

(** X9. The loop over the required fields returns, leaving frame and state
    alone, when every field is a key of the request; when a field is missing
    it raises 400 for the first one that is, every field before it being
    present, and leaves frame and state alone as well.  One of the two cases
    always applies. *)
Theorem check_required_reports_first_missing fields order_data fr g :
  ((∀ f, f ∈ fields → is_Some (order_data !! f)) →
   check_required fields order_data fr g = (Return (), fr, g)) ∧
  (∀ pre field post,
     fields = (pre ++ field :: post)%list →
     (∀ f, f ∈ pre → is_Some (order_data !! f)) →
     order_data !! field = None →
     check_required fields order_data fr g =
       (Raise (HTTPException 400 ("Missing required field: " ++ field)), fr, g)) ∧
  ((∀ f, f ∈ fields → is_Some (order_data !! f)) ∨
   ∃ pre field post,
     fields = (pre ++ field :: post)%list ∧
     (∀ f, f ∈ pre → is_Some (order_data !! f)) ∧
     order_data !! field = None).
Proof.
  rewrite check_required_eq. split; [|split].
  - intros Hall. by rewrite (proj2 (first_missing_None _ _) Hall).
  - intros pre field post Heq Hpre Hmiss.
    assert (first_missing fields order_data = Some field) as ->; [|done].
    apply first_missing_split. by exists pre, post.
  - destruct (first_missing fields order_data) as [field|] eqn:Hfirst.
    + right. apply first_missing_split in Hfirst as (pre & post & Hsplit).
      by exists pre, field, post.
    + left. by apply first_missing_None.
Qed.

(** X10. For a request with the four required fields the order dictionary
    has exactly its fifteen keys, whatever other keys the request carries:
    symbol, action and orderType are copied, secType and exchange are the
    request's or default to "STK" and "SMART", and clientId, avgFillPrice and
    lastFillPrice are the constants 1, 0.0 and 0.0. *)
Theorem new_order_fields order_data fr g :
  has_required_fields order_data →
  ∃ o,
    new_order order_data fr g = (Return o, fr, g) ∧
    dom o = order_keys ∧
    o !! "symbol" = order_data !! "symbol" ∧
    o !! "action" = order_data !! "action" ∧
    o !! "orderType" = order_data !! "orderType" ∧
    o !! "secType" = Some (get order_data "secType" (VStr "STK")) ∧
    o !! "exchange" = Some (get order_data "exchange" (VStr "SMART")) ∧
    o !! "clientId" = Some (VInt 1) ∧
    o !! "avgFillPrice" = Some (VFloat 0) ∧
    o !! "lastFillPrice" = Some (VFloat 0).
Proof.
  intros Hreq.
  destruct (Hreq "symbol") as [s Hs]; [set_solver|].
  destruct (Hreq "action") as [a Ha]; [set_solver|].
  destruct (Hreq "quantity") as [q Hq]; [set_solver|].
  destruct (Hreq "orderType") as [t Ht]; [set_solver|].
  unfold new_order, getitem, bind, ret. rewrite Ha, Hq, Ht, Hs.
  eexists. split; [reflexivity|]. unfold mkdict. simpl.
  split; [|repeat split; by simplify_map_eq].
  rewrite !dom_insert_L, dom_empty_L. unfold order_keys. simpl. set_solver.
Qed.

End Server.

(** ** The conversion helpers *)

Lemma display_dom o items d :
  display o items = Got d → dom d = list_to_set items.*1.
Proof.
  revert d. induction items as [|[k path] rest IH]; simpl; intros d.
  - intros [= <-]. apply dom_empty_L.
  - destruct (getattr_path o path) as [x|]; [|discriminate].
    destruct (display o rest) as [d'|]; [|discriminate].
    intros [= <-]. rewrite dom_insert_L. by rewrite (IH d').
Qed.

Lemma display_lookup o items d :
  NoDup items.*1 →
  display o items = Got d →
  ∀ k path, (k, path) ∈ items →
    ∃ x, getattr_path o path = Got x ∧ d !! k = Some x.
Proof.
  revert d. induction items as [|[k0 path0] rest IH]; simpl; intros d Hnd Hd k path Hin.
  - by apply elem_of_nil in Hin.
  - apply NoDup_cons in Hnd as [Hfresh Hnd].
    destruct (getattr_path o path0) as [x0|] eqn:Hx0; [|discriminate].
    destruct (display o rest) as [d'|] eqn:Hd'; [|discriminate].
    injection Hd as <-.
    apply elem_of_cons in Hin as [[= -> ->]|Hin].
    + exists x0. by rewrite lookup_insert_eq.
    + destruct (IH d' Hnd eq_refl k path Hin) as (x & Hx & Hlook).
      exists x. split; [done|]. rewrite lookup_insert_ne; [done|].
      intros ->. apply Hfresh. apply list_elem_of_fmap.
      by exists (k, path).
Qed.

Lemma display_total o items :
  (∀ k path, (k, path) ∈ items → ∃ x, getattr_path o path = Got x) →
  ∃ d, display o items = Got d.
Proof.
  induction items as [|[k path] rest IH]; simpl; intros Hall; [by eexists|].
  destruct (Hall k path) as [x ->]; [by left|].
  destruct IH as [d' ->]; [|by eexists].
  intros k' path' Hin. apply (Hall k' path'). by right.
Qed.

Lemma display_first_error o items n :
  display o items = AttributeError n →
  ∃ pre k path post,
    items = (pre ++ (k, path) :: post)%list ∧
    (∀ k' path', (k', path') ∈ pre → ∃ x, getattr_path o path' = Got x) ∧
    getattr_path o path = AttributeError n.
Proof.
  induction items as [|[k path] rest IH]; simpl; [discriminate|].
  destruct (getattr_path o path) as [x|n'] eqn:Hx.
  - destruct (display o rest) as [d'|n''] eqn:Hd'; [discriminate|].
    intros [= ->]. destruct (IH eq_refl) as (pre & k1 & path1 & post & -> & Hpre & Herr).
    exists ((k, path) :: pre), k1, path1, post. repeat split; [|done].
    intros k' path' [[= -> ->]|Hin]%elem_of_cons; [by exists x | eauto].
  - intros [= ->]. exists [], k, path, rest. repeat split; [|done].
    intros k' path' Hin. by apply elem_of_nil in Hin.
Qed.

Lemma contract_items_NoDup : NoDup contract_items.*1.
Proof. by apply (bool_decide_unpack _). Qed.

Lemma position_items_NoDup : NoDup position_items.*1.
Proof. by apply (bool_decide_unpack _). Qed.

Lemma order_items_NoDup : NoDup order_items.*1.
Proof. by apply (bool_decide_unpack _). Qed.

Lemma to_dict_None items o :
  to_dict items o = Got None ↔ object_truthy o = false.
Proof.
  unfold to_dict. destruct (object_truthy o); simpl; [|done].
  destruct (display o items); split; discriminate.
Qed.

Lemma to_dict_Some items o d :
  to_dict items o = Got (Some d) ↔
  object_truthy o = true ∧ display o items = Got d.
Proof.
  unfold to_dict. destruct (object_truthy o); simpl.
  - destruct (display o items) as [a|n]; split.
    + by intros [= ->].
    + by intros [_ [= ->]].
    + discriminate.
    + intros [_ ?]; discriminate.
  - split; [discriminate | intros [? _]; discriminate].
Qed.

Lemma getattr_path_1 o name : getattr_path o [name] = getattr o name.
Proof. simpl. by destruct (getattr o name). Qed.

Lemma getattr_path_2 o a b x :
  getattr_path o [a; b] = Got x ↔
  ∃ c, getattr o a = Got c ∧ getattr c b = Got x.
Proof.
  simpl. destruct (getattr o a) as [c|n].
  - destruct (getattr c b) as [y|m] eqn:Hb; split.
    + intros [= ->]. by exists c.
    + intros (c' & [= <-] & Hc'). congruence.
    + discriminate.
    + intros (c' & [= <-] & Hc'). congruence.
  - split; [discriminate | intros (c & ? & _); discriminate].
Qed.

(** Case analysis on membership in a list that is written out, and
    membership in such a list. *)
Ltac elem_cases H :=
  repeat (apply elem_of_cons in H as [H|H]);
  [..|by apply elem_of_nil in H].

Ltac elem_here :=
  by repeat first [apply list_elem_of_here | apply list_elem_of_further].

Lemma contract_items_paths k path :
  (k, path) ∈ contract_items ↔ k ∈ contract_items.*1 ∧ path = [k].
Proof.
  unfold contract_items. split.
  - intros H. elem_cases H; injection H as -> ->; (split; [simpl; elem_here|done]).
  - intros [H ->]. simpl in H. elem_cases H; subst; elem_here.
Qed.

Lemma contract_to_dict_entries contract d :
  contract_to_dict contract = Got (Some d) →
  ∀ k, k ∈ contract_items.*1 →
    ∃ x, getattr contract k = Got x ∧ d !! k = Some x.
Proof.
  unfold contract_to_dict. intros Hd k Hk. apply to_dict_Some in Hd as [_ Hd].
  destruct (display_lookup _ _ _ contract_items_NoDup Hd k [k])
    as (x & Hx & Hlook); [by apply contract_items_paths|].
  exists x. by rewrite <- getattr_path_1.
Qed.

(** X12. [contract_to_dict] returns None exactly for a falsy argument, None
    included.  A dictionary it returns has the six keys symbol, secType,
    exchange, currency, localSymbol and conId, each holding the attribute of
    that name; and a truthy argument gives a dictionary exactly when it has
    these six attributes. *)
Theorem contract_to_dict_outcomes contract :
  (contract_to_dict contract = Got None ↔ object_truthy contract = false) ∧
  (∀ d, contract_to_dict contract = Got (Some d) →
     dom d = list_to_set contract_items.*1 ∧
     ∀ k, k ∈ contract_items.*1 →
       ∃ x, getattr contract k = Got x ∧ d !! k = Some x) ∧
  (object_truthy contract = true →
   ((∃ d, contract_to_dict contract = Got (Some d)) ↔
    ∀ k, k ∈ contract_items.*1 → ∃ x, getattr contract k = Got x)).
Proof.
  unfold contract_to_dict. split; [exact (to_dict_None _ _)|]. split.
  - intros d Hd. split; [|by apply contract_to_dict_entries].
    apply to_dict_Some in Hd as [_ Hd]. exact (display_dom _ _ _ Hd).
  - intros Htruthy. split.
    + intros [d Hd] k Hk.
      destruct (contract_to_dict_entries _ _ Hd k Hk) as (x & Hx & _).
      by exists x.
    + intros Hall.
      destruct (display_total contract contract_items) as [d Hd].
      { intros k path [Hk ->]%contract_items_paths.
        destruct (Hall k Hk) as [x Hx]. exists x. by rewrite getattr_path_1. }
      exists d. by apply to_dict_Some.
Qed.

(** X13. [position_to_dict] does not guard the contract of its argument: a
    truthy position without the attribute [contract] raises AttributeError
    for it, and one whose [contract] is a plain value such as None raises
    AttributeError for [symbol], although [contract_to_dict] answers None for
    that same contract. *)
Theorem position_to_dict_needs_contract attrs :
  (attrs !! "contract" = None →
   position_to_dict (OInstance true attrs) = AttributeError "contract") ∧
  (∀ v, attrs !! "contract" = Some (OValue v) →
     position_to_dict (OInstance true attrs) = AttributeError "symbol" ∧
     (truthy v = false → contract_to_dict (OValue v) = Got None)).
Proof.
  split.
  - intros Hc. unfold position_to_dict, to_dict. simpl. by rewrite Hc.
  - intros v Hc. split.
    + unfold position_to_dict, to_dict. simpl. by rewrite Hc.
    + intros Hv. unfold contract_to_dict, to_dict. simpl. by rewrite Hv.
Qed.

Lemma getattr_path_2_inv o a b x :
  getattr_path o [a; b] = Got x →
  ∀ c, getattr o a = Got c → getattr c b = Got x.
Proof.
  intros (c' & Hc' & Hx)%getattr_path_2 c Hc. congruence.
Qed.

(** X14. A dictionary [position_to_dict] returns takes symbol, secType,
    exchange and currency from the contract of the position and its six
    other entries from the position itself; on the four contract fields it
    agrees with what [contract_to_dict] returns for that contract. *)
Theorem position_to_dict_agrees_with_contract position d :
  position_to_dict position = Got (Some d) →
  ∃ c,
    getattr position "contract" = Got c ∧
    (∀ k, k ∈ ["symbol"; "secType"; "exchange"; "currency"] →
       ∃ x, getattr c k = Got x ∧ d !! k = Some x) ∧
    (∀ k, k ∈ ["position"; "avgCost"; "marketPrice"; "marketValue";
               "unrealizedPNL"; "realizedPNL"] →
       ∃ x, getattr position k = Got x ∧ d !! k = Some x) ∧
    (∀ dc, contract_to_dict c = Got (Some dc) →
       ∀ k, k ∈ ["symbol"; "secType"; "exchange"; "currency"] →
         d !! k = dc !! k).
Proof.
  unfold position_to_dict. intros Hd. apply to_dict_Some in Hd as [_ Hd].
  pose proof (display_lookup _ _ _ position_items_NoDup Hd) as Hlook.
  destruct (Hlook "symbol" ["contract"; "symbol"]) as (x0 & Hx0 & _);
    [unfold position_items; elem_here|].
  apply getattr_path_2 in Hx0 as (c & Hc & _).
  assert (∀ k, k ∈ ["symbol"; "secType"; "exchange"; "currency"] →
            ∃ x, getattr c k = Got x ∧ d !! k = Some x) as Hfour.
  { intros k Hk.
    destruct (Hlook k ["contract"; k]) as (x & Hx & Hdk).
    { unfold position_items. elem_cases Hk; subst; elem_here. }
    exists x. split; [|done]. by apply (getattr_path_2_inv position "contract"). }
  exists c. split; [done|]. split; [done|]. split.
  - intros k Hk.
    destruct (Hlook k [k]) as (x & Hx & Hdk).
    { unfold position_items. elem_cases Hk; subst; elem_here. }
    exists x. by rewrite <- getattr_path_1.
  - intros dc Hdc k Hk.
    destruct (Hfour k Hk) as (x & Hx & ->).
    destruct (contract_to_dict_entries c dc Hdc k) as (y & Hy & ->);
      [simpl; elem_cases Hk; subst; elem_here | congruence].
Qed.

Lemma order_items_keys : list_to_set order_items.*1 = order_keys.
Proof. reflexivity. Qed.

(** X15. A dictionary [order_to_dict] returns has the fifteen keys of the
    orders that [get_orders] lists and [place_order] answers with; it takes
    the order fields from [trade.order], the five status fields from
    [trade.orderStatus] and symbol, secType and exchange from
    [trade.contract]. *)
Theorem order_to_dict_schema trade d :
  order_to_dict trade = Got (Some d) →
  dom d = order_keys ∧
  Forall (λ o, dom o = dom d) mock_orders ∧
  ∃ o st c,
    getattr trade "order" = Got o ∧
    getattr trade "orderStatus" = Got st ∧
    getattr trade "contract" = Got c ∧
    (∀ k, k ∈ ["orderId"; "clientId"; "action"; "totalQuantity"; "orderType";
               "lmtPrice"; "auxPrice"] →
       ∃ x, getattr o k = Got x ∧ d !! k = Some x) ∧
    (∀ k, k ∈ ["status"; "filled"; "remaining"; "avgFillPrice";
               "lastFillPrice"] →
       ∃ x, getattr st k = Got x ∧ d !! k = Some x) ∧
    (∀ k, k ∈ ["symbol"; "secType"; "exchange"] →
       ∃ x, getattr c k = Got x ∧ d !! k = Some x).
Proof.
  unfold order_to_dict. intros Hd. apply to_dict_Some in Hd as [_ Hd].
  pose proof (display_dom _ _ _ Hd) as Hdom. rewrite order_items_keys in Hdom.
  pose proof (display_lookup _ _ _ order_items_NoDup Hd) as Hlook.
  split; [done|]. split.
  { rewrite Hdom. by repeat constructor. }
  destruct (Hlook "orderId" ["order"; "orderId"]) as (x0 & Hx0 & _);
    [unfold order_items; elem_here|].
  apply getattr_path_2 in Hx0 as (o & Ho & _).
  destruct (Hlook "status" ["orderStatus"; "status"]) as (x1 & Hx1 & _);
    [unfold order_items; elem_here|].
  apply getattr_path_2 in Hx1 as (st & Hst & _).
  destruct (Hlook "symbol" ["contract"; "symbol"]) as (x2 & Hx2 & _);
    [unfold order_items; elem_here|].
  apply getattr_path_2 in Hx2 as (c & Hc & _).
  exists o, st, c. repeat split; try done.
  - intros k Hk.
    destruct (Hlook k ["order"; k]) as (x & Hx & Hdk).
    { unfold order_items. elem_cases Hk; subst; elem_here. }
    exists x. split; [|done]. by apply (getattr_path_2_inv trade "order").
  - intros k Hk.
    destruct (Hlook k ["orderStatus"; k]) as (x & Hx & Hdk).
    { unfold order_items. elem_cases Hk; subst; elem_here. }
    exists x. split; [|done]. by apply (getattr_path_2_inv trade "orderStatus").
  - intros k Hk.
    destruct (Hlook k ["contract"; k]) as (x & Hx & Hdk).
    { unfold order_items. elem_cases Hk; subst; elem_here. }
    exists x. split; [|done]. by apply (getattr_path_2_inv trade "contract").
Qed.

(** ** Instances and counterexamples on sample data *)

(** The state right after import, and the state after a successful
    POST /connect in it. *)
Abbreviation fresh_state :=
  (initial_state demo_environ "2024-01-01T00:00:00").

Abbreviation live_state := (after_connect fresh_state).

Lemma limit_order_required : has_required_fields limit_order.
Proof. unfold has_required_fields. by rewrite <- first_missing_None. Qed.

Lemma negative_order_required : has_required_fields negative_order.
Proof. unfold has_required_fields. by rewrite <- first_missing_None. Qed.

Lemma unpriced_limit_order_required : has_required_fields unpriced_limit_order.
Proof. unfold has_required_fields. by rewrite <- first_missing_None. Qed.

Lemma frame_with_connected_lookup v :
  frame_with_connected v !! "connected" = Some v.
Proof. apply lookup_singleton_eq. Qed.

Lemma demo_key_set : API_KEY demo_environ ≠ "".
Proof. discriminate. Qed.

Lemma data_handlers_raise_UnboundLocalError_witness :
  run (serve demo_environ demo_exn_str demo_status (Some (API_KEY demo_environ))
         GET_accounts) live_state =
    (Raise (UnboundLocalError "connected"), live_state).
Proof.
  apply (proj2 (data_handlers_raise_UnboundLocalError demo_environ demo_exn_str
                  demo_status) GET_accounts live_state).
  - reflexivity.
  - discriminate.
Defined.

Lemma invalid_api_key_rejected_witness :
  run (serve demo_environ demo_exn_str demo_status (Some "guess") GET_status)
    fresh_state =
    (Raise (HTTPException 401 "Invalid API Key"), fresh_state) ∧
  run (serve demo_environ demo_exn_str demo_status None GET_status)
    fresh_state =
    (Raise (HTTPException demo_status "Not authenticated"), fresh_state).
Proof.
  split.
  - apply (proj1 (invalid_api_key_rejected demo_environ demo_exn_str
                    demo_status (Some "guess") GET_status fresh_state eq_refl)
             "guess");
      [reflexivity | discriminate | discriminate].
  - apply (proj1 (proj2 (invalid_api_key_rejected demo_environ demo_exn_str
                           demo_status None GET_status fresh_state eq_refl))).
    by left.
Defined.

(** C4 fails on the code.  With the status 403 that fastapi 0.115 gives to
    "Not authenticated", GET /status without the X-API-Key header is
    answered 403 by [APIKeyHeader], not 401. *)
Lemma missing_api_key_counterexample :
  run (serve demo_environ demo_exn_str 403 None GET_status) fresh_state =
    (Raise (HTTPException 403 "Not authenticated"), fresh_state) ∧
  ¬ (∃ detail g',
       run (serve demo_environ demo_exn_str 403 None GET_status) fresh_state =
         (Raise (HTTPException 401 detail), g')).
Proof.
  assert (run (serve demo_environ demo_exn_str 403 None GET_status) fresh_state =
            (Raise (HTTPException 403 "Not authenticated"), fresh_state))
    as Hrun by (by apply serve_rejected).
  split; [exact Hrun|].
  intros (detail & g' & Hd). rewrite Hrun in Hd. discriminate.
Qed.



Lemma connect_to_ib_always_succeeds_witness :
  ∃ g',
    (∀ fr, call (connect_to_ib demo_exn_str) fr fresh_state =
             (Return (VBool true), fr, g')) ∧
    connected g' = VBool true ∧
    server_state g' !! "connected" = Some (VBool true) ∧
    server_state g' !! "status" = Some (VStr "connected") ∧
    run (serve demo_environ demo_exn_str demo_status
           (Some (API_KEY demo_environ)) POST_connect) fresh_state =
      (Return (VDict (mkdict [
         ("success", VBool true);
         ("status", VStr "connected");
         ("timestamp", VStr (utcnow fresh_state))])), g').
Proof.
  destruct (proj2 (proj2 (connect_to_ib_always_succeeds demo_environ
                            demo_exn_str demo_status))
              fresh_state (reachable_init _ _ _ _))
    as (g' & Hcall & Hflag & Hsync & Hstatus & _ & Hrequest).
  exists g'. repeat split; try assumption.
  apply Hrequest. discriminate.
Defined.

Lemma data_handlers_reconnect_on_read_witness :
  (endpoint demo_environ demo_exn_str GET_accounts
     (frame_with_connected (VBool false)) fresh_state).2 =
    connect_effect fresh_state ∧
  truthy (connected (endpoint demo_environ demo_exn_str GET_accounts
     (frame_with_connected (VBool false)) fresh_state).2) = true.
Proof.
  apply (proj2 (data_handlers_reconnect_on_read demo_environ demo_exn_str
                  GET_accounts (frame_with_connected (VBool false)) fresh_state
                  eq_refl) (VBool false)).
  - apply frame_with_connected_lookup.
  - reflexivity.
Defined.

Lemma place_order_returns_presubmitted_witness :
  ∃ o q,
    limit_order !! "quantity" = Some q ∧
    place_order demo_exn_str limit_order (frame_with_connected (VBool true))
      live_state =
      (Return (VDict o),
       passed_frame (VBool true) (frame_with_connected (VBool true)),
       passed_state (VBool true) live_state) ∧
    o !! "filled" = Some (VInt 0) ∧
    o !! "remaining" = Some q ∧
    o !! "totalQuantity" = Some q ∧
    o !! "status" = Some (VStr "PreSubmitted").
Proof.
  apply (place_order_returns_presubmitted demo_exn_str limit_order
           (frame_with_connected (VBool true)) live_state (VBool true)).
  - apply frame_with_connected_lookup.
  - apply limit_order_required.
Defined.

Lemma place_order_fixed_orderId_example :
  ∃ o1 o2 g1 g2,
    place_order demo_exn_str limit_order (frame_with_connected (VBool true))
      live_state =
      (Return (VDict o1),
       passed_frame (VBool true) (frame_with_connected (VBool true)), g1) ∧
    place_order demo_exn_str negative_order (frame_with_connected (VBool true))
      g1 =
      (Return (VDict o2),
       passed_frame (VBool true) (frame_with_connected (VBool true)), g2) ∧
    order_id o1 = Some 2 ∧
    order_id o2 = Some 2.
Proof.
  apply (place_order_fixed_orderId demo_exn_str limit_order negative_order
           (frame_with_connected (VBool true))
           (frame_with_connected (VBool true)) live_state
           (VBool true) (VBool true)).
  - apply frame_with_connected_lookup.
  - apply frame_with_connected_lookup.
  - apply limit_order_required.
  - apply negative_order_required.
Defined.

Lemma place_order_validates_required_fields_witness :
  place_order demo_exn_str (delete "quantity" limit_order)
    (frame_with_connected (VBool true)) live_state =
    (Raise (HTTPException 400 "Missing required field: quantity"),
     passed_frame (VBool true) (frame_with_connected (VBool true)),
     passed_state (VBool true) live_state).
Proof.
  exact (place_order_validates_required_fields demo_exn_str
           (delete "quantity" limit_order)
           (frame_with_connected (VBool true)) live_state (VBool true)
           (frame_with_connected_lookup (VBool true))).
Defined.

Lemma cancel_order_never_404_witness :
  cancel_order demo_exn_str 1 (frame_with_connected (VBool true)) live_state =
    (Return (VDict (mkdict [
       ("orderId", VInt 1);
       ("status", VStr "Cancelled");
       ("message", VStr "Order cancelled successfully");
       ("timestamp", VStr (utcnow live_state))])),
     passed_frame (VBool true) (frame_with_connected (VBool true)),
     passed_state (VBool true) live_state).
Proof.
  apply (proj2 (cancel_order_never_404 demo_exn_str 1
                  (frame_with_connected (VBool true)) live_state) (VBool true)).
  apply frame_with_connected_lookup.
Defined.

Lemma order_bodies_quantity_equation_example :
  ∃ o,
    place_order demo_exn_str limit_order (frame_with_connected (VBool true))
      live_state =
      (Return (VDict o), frame_with_connected (VBool true), live_state) ∧
    quantity_equation o.
Proof.
  destruct (place_order_accepts demo_exn_str limit_order
              (frame_with_connected (VBool true)) live_state (VBool true)
              (frame_with_connected_lookup _) limit_order_required)
    as (o & Ho & _).
  exists o. split; [exact Ho|].
  eapply (proj2 (order_bodies_quantity_equation demo_exn_str
                   (frame_with_connected (VBool true)) live_state (VBool true)
                   (frame_with_connected_lookup _))
            limit_order (VInt 100) (NumInt 100) o);
    [reflexivity | reflexivity | discriminate | exact Ho].
Qed.

(** C1 fails on the code.  In the state right after import the session is
    not connected; GET /accounts with the right key raises
    [UnboundLocalError], which is no 503, and with [connected] bound to False
    the handler connects and returns its account list. *)
Lemma disconnected_request_503_counterexample :
  truthy (connected fresh_state) = false ∧
  run (serve demo_environ demo_exn_str demo_status (Some "s3cret") GET_accounts) fresh_state =
    (Raise (UnboundLocalError "connected"), fresh_state) ∧
  (∃ resp,
     get_accounts demo_environ demo_exn_str
       (frame_with_connected (VBool false)) fresh_state =
       (Return resp, <["connected" := VBool true]> (frame_with_connected (VBool false)),
        after_connect fresh_state)) ∧
  ¬ (∃ d g',
       run (serve demo_environ demo_exn_str demo_status (Some "s3cret") GET_accounts)
         fresh_state = (Raise (HTTPException 503 d), g')).
Proof.
  assert (run (serve demo_environ demo_exn_str demo_status (Some "s3cret") GET_accounts)
            fresh_state = (Raise (UnboundLocalError "connected"), fresh_state))
    as Hrun.
  { by apply (serve_data_handler_unbound demo_environ demo_exn_str demo_status). }
  split; [reflexivity|]. split; [exact Hrun|]. split.
  - eexists. unfold get_accounts.
    rewrite guarded_local, frame_with_connected_lookup by reflexivity.
    reflexivity.
  - intros (d & g' & Hd). rewrite Hrun in Hd. discriminate.
Qed.

(** C3 fails on the code.  With a live session, POST /orders for a limit
    order with the right key raises [UnboundLocalError]; with [connected]
    bound to True the order comes back with status "PreSubmitted", not
    "PendingSubmit". *)
Lemma place_order_status_counterexample :
  truthy (connected live_state) = true ∧
  has_required_fields limit_order ∧
  run (serve demo_environ demo_exn_str demo_status (Some "s3cret") (POST_orders limit_order))
    live_state = (Raise (UnboundLocalError "connected"), live_state) ∧
  ∃ o,
    place_order demo_exn_str limit_order (frame_with_connected (VBool true))
      live_state =
      (Return (VDict o), frame_with_connected (VBool true), live_state) ∧
    o !! "status" = Some (VStr "PreSubmitted") ∧
    o !! "status" ≠ Some (VStr "PendingSubmit").
Proof.
  split; [reflexivity|]. split; [apply limit_order_required|]. split.
  - by apply (serve_data_handler_unbound demo_environ demo_exn_str demo_status).
  - destruct (place_order_accepts demo_exn_str limit_order
                (frame_with_connected (VBool true)) live_state (VBool true)
                (frame_with_connected_lookup _) limit_order_required)
      as (o & Ho & _ & Hstatus & _).
    exists o. split; [exact Ho|]. split; [exact Hstatus|].
    rewrite Hstatus. discriminate.
Qed.

(** C7 fails on the code.  With [connected] bound to True, an order for the
    quantity -5 is accepted with that quantity, and a limit order without a
    limit price is accepted with the price 0.0; with the right key the whole
    request raises [UnboundLocalError], which is no 400. *)
Lemma place_order_validation_counterexample :
  negative_order !! "quantity" = Some (VInt (-5)) ∧
  unpriced_limit_order !! "orderType" = Some (VStr "LMT") ∧
  unpriced_limit_order !! "limitPrice" = None ∧
  (∃ o,
     place_order demo_exn_str negative_order (frame_with_connected (VBool true))
       live_state =
       (Return (VDict o), frame_with_connected (VBool true), live_state) ∧
     o !! "totalQuantity" = Some (VInt (-5))) ∧
  (∃ o,
     place_order demo_exn_str unpriced_limit_order
       (frame_with_connected (VBool true)) live_state =
       (Return (VDict o), frame_with_connected (VBool true), live_state) ∧
     o !! "lmtPrice" = Some (VFloat 0)) ∧
  run (serve demo_environ demo_exn_str demo_status (Some "s3cret") (POST_orders negative_order))
    live_state = (Raise (UnboundLocalError "connected"), live_state).
Proof.
  split; [reflexivity|]. split; [reflexivity|]. split; [reflexivity|].
  split; [|split].
  - destruct (place_order_accepts demo_exn_str negative_order
                (frame_with_connected (VBool true)) live_state (VBool true)
                (frame_with_connected_lookup _) negative_order_required)
      as (o & Ho & _ & _ & _ & _ & Htot & _).
    exists o. split; [exact Ho | exact Htot].
  - destruct (place_order_accepts demo_exn_str unpriced_limit_order
                (frame_with_connected (VBool true)) live_state (VBool true)
                (frame_with_connected_lookup _) unpriced_limit_order_required)
      as (o & Ho & _ & _ & _ & _ & _ & Hlmt & _).
    exists o. split; [exact Ho | exact Hlmt].
  - by apply (serve_data_handler_unbound demo_environ demo_exn_str demo_status).
Qed.

(** C8 fails on the code.  The order id 999 is not among the listed orders;
    with [connected] bound to True its cancellation is confirmed, and with
    the right key the whole request raises [UnboundLocalError]: neither is a
    404. *)
Lemma cancel_unknown_order_counterexample :
  (999 ∉ listed_order_ids) ∧
  cancel_order demo_exn_str 999 (frame_with_connected (VBool true)) live_state =
    (Return (VDict (mkdict [
       ("orderId", VInt 999);
       ("status", VStr "Cancelled");
       ("message", VStr "Order cancelled successfully");
       ("timestamp", VStr "2024-01-01T00:00:00")])),
     frame_with_connected (VBool true), live_state) ∧
  run (serve demo_environ demo_exn_str demo_status (Some "s3cret") (DELETE_orders 999))
    live_state = (Raise (UnboundLocalError "connected"), live_state).
Proof.
  split; [|split].
  - assert (listed_order_ids = [1]) as -> by reflexivity.
    by intros ?%list_elem_of_singleton.
  - apply (cancel_order_bound demo_exn_str 999
             (frame_with_connected (VBool true)) live_state (VBool true)).
    apply frame_with_connected_lookup.
  - by apply (serve_data_handler_unbound demo_environ demo_exn_str demo_status).
Qed.

(** ** Instances of the further properties *)

Lemma connect_then_disconnect_witness :
  server_state (disconnect_effect (connect_effect fresh_state)) !! "status" =
    Some (VStr "disconnected") ∧
  server_state (disconnect_effect (connect_effect fresh_state))
    !! "last_connected" = Some (VStr "2024-01-01T00:00:00").
Proof.
  pose proof (connect_then_disconnect demo_environ demo_exn_str demo_status
                fresh_state demo_key_set eq_refl)
    as (_ & _ & _ & Hstatus & Hlast & _).
  split; [exact Hstatus | exact Hlast].
Defined.

Lemma live_state_reachable :
  reachable demo_environ demo_exn_str demo_status live_state.
Proof.
  replace live_state
    with (step demo_environ demo_exn_str demo_status
            (Request (Some (API_KEY demo_environ)) POST_connect) fresh_state)
    by (apply step_connect, demo_key_set).
  apply reachable_step, reachable_init.
Qed.

Lemma reachable_session_in_sync_witness :
  ∃ (b : bool) (s : string),
    connected live_state = VBool b ∧
    server_state live_state !! "connected" = Some (VBool b) ∧
    server_state live_state !! "status" = Some (VStr s) ∧
    (s = "initializing" ∨ s = "connected" ∨ s = "disconnected") ∧
    (s = "connected" ↔ b = true).
Proof.
  apply (reachable_session_in_sync demo_environ demo_exn_str demo_status
           live_state).
  apply live_state_reachable.
Defined.

Lemma reachable_identity_kept_witness :
  dom (server_state live_state) = server_state_keys ∧
  server_state live_state !! "user_id" = Some (VStr (USER_ID demo_environ)) ∧
  server_state live_state !! "account_id" =
    Some (VStr ("ib_" ++ IB_USERNAME demo_environ)) ∧
  (∃ t, server_state live_state !! "startup_time" = Some (VStr t)) ∧
  server_state live_state !! "error_message" = Some VNone.
Proof.
  apply (reachable_identity_kept demo_environ demo_exn_str demo_status
           live_state).
  apply live_state_reachable.
Defined.

Lemma health_agrees_with_status_witness :
  ∃ (b : bool) (h st : dict),
    run (serve demo_environ demo_exn_str demo_status None GET_health)
      live_state = (Return (VDict h), live_state) ∧
    h !! "status" = Some (VStr "healthy") ∧
    h !! "ib_connection" = Some (VBool b) ∧
    run (serve demo_environ demo_exn_str demo_status
           (Some (API_KEY demo_environ)) GET_status) live_state =
      (Return (VDict st), live_state) ∧
    st !! "connected" = Some (VBool b).
Proof.
  destruct (health_agrees_with_status demo_environ demo_exn_str demo_status
              None live_state live_state_reachable)
    as (b & h & st & Hhealth & Hhealthy & Hconn & _ & Hst & Hstatus).
  exists b, h, st. repeat split; try assumption.
  apply Hstatus, demo_key_set.
Defined.

Lemma state_changes_need_key_and_session_route_witness :
  Some "s3cret" = Some (API_KEY demo_environ) ∧
  (POST_connect = POST_connect ∨ POST_connect = POST_disconnect).
Proof.
  apply (state_changes_need_key_and_session_route demo_environ demo_exn_str
           demo_status (Some "s3cret") POST_connect fresh_state).
  intros Hsame. apply (f_equal connected) in Hsame. discriminate Hsame.
Defined.

Lemma disconnect_response_witness :
  ∃ s,
    run (serve demo_environ demo_exn_str demo_status (Some (API_KEY demo_environ))
           POST_disconnect) fresh_state =
      (Return (VDict (mkdict [
         ("success", VBool true);
         ("status", VStr s);
         ("timestamp", VStr (utcnow fresh_state))])),
       disconnect_effect fresh_state) ∧
    (truthy (connected fresh_state) = true → s = "disconnected") ∧
    (truthy (connected fresh_state) = false →
     server_state fresh_state !! "status" = Some (VStr s) ∧
     disconnect_effect fresh_state = fresh_state).
Proof.
  apply (disconnect_response demo_environ demo_exn_str demo_status
           fresh_state demo_key_set).
  apply reachable_init.
Defined.

Lemma shutdown_leaves_session_closed_witness :
  ∃ g' s,
    run (shutdown_event demo_exn_str) live_state = (Return (), g') ∧
    connected g' = VBool false ∧
    server_state g' !! "connected" = Some (VBool false) ∧
    server_state g' !! "status" = Some (VStr s) ∧
    (s = "initializing" ∨ s = "disconnected").
Proof.
  apply (shutdown_leaves_session_closed demo_environ demo_exn_str demo_status
           live_state).
  apply live_state_reachable.
Defined.

Lemma check_required_reports_first_missing_witness :
  check_required required_fields limit_order ∅ fresh_state =
    (Return (), ∅, fresh_state) ∧
  check_required required_fields (delete "quantity" limit_order) ∅ fresh_state =
    (Raise (HTTPException 400 "Missing required field: quantity"),
     ∅, fresh_state).
Proof.
  split.
  - apply (proj1 (check_required_reports_first_missing required_fields
                    limit_order ∅ fresh_state)).
    apply limit_order_required.
  - apply (proj1 (proj2 (check_required_reports_first_missing required_fields
                           (delete "quantity" limit_order) ∅ fresh_state))
             ["symbol"; "action"] "quantity" ["orderType"]).
    + reflexivity.
    + intros f Hf. elem_cases Hf; subst; by eexists.
    + reflexivity.
Defined.

Lemma new_order_fields_witness :
  ∃ o,
    new_order unpriced_limit_order ∅ fresh_state = (Return o, ∅, fresh_state) ∧
    dom o = order_keys ∧
    o !! "symbol" = unpriced_limit_order !! "symbol" ∧
    o !! "action" = unpriced_limit_order !! "action" ∧
    o !! "orderType" = unpriced_limit_order !! "orderType" ∧
    o !! "secType" = Some (get unpriced_limit_order "secType" (VStr "STK")) ∧
    o !! "exchange" = Some (get unpriced_limit_order "exchange" (VStr "SMART")) ∧
    o !! "clientId" = Some (VInt 1) ∧
    o !! "avgFillPrice" = Some (VFloat 0) ∧
    o !! "lastFillPrice" = Some (VFloat 0).
Proof.
  apply (new_order_fields unpriced_limit_order ∅ fresh_state).
  apply unpriced_limit_order_required.
Defined.

Lemma contract_to_dict_outcomes_witness :
  ∃ d, contract_to_dict aapl_contract = Got (Some d).
Proof.
  apply (proj2 (proj2 (contract_to_dict_outcomes aapl_contract)) eq_refl).
  intros k Hk. simpl in Hk. elem_cases Hk; subst; by eexists.
Defined.

Lemma position_to_dict_needs_contract_witness :
  position_to_dict orphan_position = AttributeError "symbol" ∧
  (truthy VNone = false → contract_to_dict (OValue VNone) = Got None).
Proof.
  apply (proj2 (position_to_dict_needs_contract _) VNone).
  reflexivity.
Defined.

Lemma aapl_position_converts : ∃ d, position_to_dict aapl_position = Got (Some d).
Proof. by eexists. Qed.

Lemma position_to_dict_agrees_with_contract_witness :
  ∃ d c,
    position_to_dict aapl_position = Got (Some d) ∧
    getattr aapl_position "contract" = Got c ∧
    ∀ k, k ∈ ["symbol"; "secType"; "exchange"; "currency"] →
      ∃ x, getattr c k = Got x ∧ d !! k = Some x.
Proof.
  destruct aapl_position_converts as [d Hd].
  destruct (position_to_dict_agrees_with_contract aapl_position d Hd)
    as (c & Hc & Hfour & _).
  exists d, c. split; [exact Hd|]. split; [exact Hc | exact Hfour].
Defined.

Lemma aapl_trade_converts : ∃ d, order_to_dict aapl_trade = Got (Some d).
Proof. by eexists. Qed.

Lemma order_to_dict_schema_witness :
  ∃ d,
    order_to_dict aapl_trade = Got (Some d) ∧
    dom d = order_keys ∧
    Forall (λ o, dom o = dom d) mock_orders.
Proof.
  destruct aapl_trade_converts as [d Hd].
  destruct (order_to_dict_schema aapl_trade d Hd) as (Hdom & Hmock & _).
  exists d. split; [exact Hd|]. split; [exact Hdom | exact Hmock].
Defined.
